(** * The [Result] algebra of fp-ts (src/Result.ts)

    A shallow embedding of the two-branch tagged union [Result<E, A>] and of
    the combinators built on it, followed by the properties of the
    specification.

    Conventions of the embedding:
    - TypeScript's curried calls keep their argument order:
      [orElse(that)(self)] is [orElse that self], [ap(fa)(fab)] is
      [ap fa fab], [Semigroup.combine(that)(self)] is [combine S that self].
    - A union type such as [E1 | E2] or [A | B] is a single Rocq type.
    - Combinators whose behaviour does not depend on what a callback does
      besides returning are pure functions.  Where a property speaks about
      whether a callback runs, or about thrown values, the callback lives in
      the [Host] monad (state of the host program plus thrown values). *)

From Stdlib Require Import String List Arith Lia.
Import ListNotations.

(** ** Model *)

(** [type Result<E, A> = Failure<E> | Success<A>]; the fields [failure] and
    [success] are the payloads. *)
Inductive Result (E A : Type) : Type :=
| Failure (failure : E)
| Success (success : A).

Arguments Failure {E A} failure.
Arguments Success {E A} success.

(** Modelled from the spec: [isFailure = _.isFailure] (src/internal.ts is not
    part of the sources), the test of the tag. *)
Definition isFailure {E A} (ma : Result E A) : bool :=
  match ma with Failure _ => true | Success _ => false end.

(** Modelled from the spec: [isSuccess = _.isSuccess] (src/internal.ts), the
    other test of the tag. *)
Definition isSuccess {E A} (ma : Result E A) : bool :=
  match ma with Failure _ => false | Success _ => true end.

(** Modelled from the spec: [fail = _.fail] (src/internal.ts): always the
    [Failure] holding [e]. *)
Definition fail {E A} (e : E) : Result E A := Failure e.

(** Modelled from the spec: [of = _.of] (src/internal.ts), the [succeed] of
    the specification: always the [Success] holding [a].  [of] is a reserved
    word of Rocq, so the constructor is named [of_]. *)
Definition of_ {E A} (a : A) : Result E A := Success a.

(** ** Function.ts: [identity], [flow], [SK] *)
Module function.

(** Modelled from the spec: [identity] (src/Function.ts is not part of the
    sources). *)
Definition identity {A} (a : A) : A := a.

(** Modelled from the spec: [flow(ab, bc)] (src/Function.ts), left-to-right
    composition. *)
Definition flow {A B C} (ab : A -> B) (bc : B -> C) : A -> C :=
  fun a => bc (ab a).

(** Modelled from the spec: [flow] (src/Function.ts) at a first function of
    two arguments, as in [flow(SK, f)]. *)
Definition flow2 {I A B C} (ab : I -> A -> B) (bc : B -> C) : I -> A -> C :=
  fun i a => bc (ab i a).

(** Modelled from the spec: [SK] (src/Function.ts), the second of two
    arguments: [flow(SK, f)] calls [f] on the element and drops the index. *)
Definition SK {I A} (_ : I) (b : A) : A := b.

End function.

(** ** The interfaces the instances of Result.ts implement *)

Module semigroup.

(** [interface Semigroup<A> { combine: (that: A) => (self: A) => A }]: the
    first argument is [that], the second is [self]. *)
Record Semigroup (A : Type) : Type := { combine : A -> A -> A }.

Arguments combine {A} _ that self.

(** Modelled from the spec: [Semigroup.intercalate] (src/Semigroup.ts is not
    part of the sources).  The combination puts [separator] between the two
    operands. *)
Definition intercalate {A} (separator : A) (S : Semigroup A) : Semigroup A :=
  {| combine := fun that self => combine S (combine S that separator) self |}.

End semigroup.

Module string_.

(** Modelled from the spec: the string-concatenation semigroup
    [string.Semigroup] (src/string.ts is not part of the sources):
    [combine(that)(self)] is [self + that]. *)
Definition Semigroup : semigroup.Semigroup string :=
  {| semigroup.combine := fun that self => (self ++ that)%string |}.

End string_.

Module flattenable.

(** [interface Flattenable<F>]: [map] and [flatMap]. *)
Record Flattenable (F : Type -> Type) : Type := {
  map : forall A B, (A -> B) -> F A -> F B;
  flatMap : forall A B, (A -> F B) -> F A -> F B
}.

Arguments map {F} _ {A B} f fa.
Arguments flatMap {F} _ {A B} f self.

(** Modelled from the spec: [flattenable.ap] (src/Flattenable.ts is not part
    of the sources).  The function side [self] is looked at first and the
    argument side [fa] only under it: a failed [self] is returned whatever
    [fa] is, otherwise a failed [fa] is returned, otherwise the function is
    applied to the payload. *)
Definition ap {F} (Flattenable : Flattenable F) {A B}
  (fa : F A) (self : F (A -> B)) : F B :=
  flatMap Flattenable (fun f => map Flattenable f fa) self.

End flattenable.

Module applicative.

(** [interface Applicative<F>]: [map], [ap] and [of]. *)
Record Applicative (F : Type -> Type) : Type := {
  map : forall A B, (A -> B) -> F A -> F B;
  ap : forall A B, F A -> F (A -> B) -> F B;
  of_ : forall A, A -> F A
}.

Arguments map {F} _ {A B} f fa.
Arguments ap {F} _ {A B} fa fab.
Arguments of_ {F} _ {A} a.

End applicative.

Module alt.

(** [interface Alt<F>]: [orElse]. *)
Record Alt (F : Type -> Type) : Type := {
  orElse : forall A, F A -> F A -> F A
}.

Arguments orElse {F} _ {A} that self.

End alt.

(** ** Combinators of Result.ts *)

(** [match(onError, onSuccess)(self)] *)
Definition match_ {E A B} (onError : E -> B) (onSuccess : A -> B)
  (self : Result E A) : B :=
  match self with
  | Failure e => onError e
  | Success a => onSuccess a
  end.

(** [catchAll(onError)(self)] *)
Definition catchAll {E1 E2 A} (onError : E1 -> Result E2 A)
  (self : Result E1 A) : Result E2 A :=
  match self with
  | Failure e => onError e
  | Success a => Success a
  end.

(** [mapBoth(f, g)(fa)] *)
Definition mapBoth {E G A B} (f : E -> G) (g : A -> B)
  (fa : Result E A) : Result G B :=
  match fa with
  | Failure e => fail (f e)
  | Success a => of_ (g a)
  end.

(** [orElse(that)(fa)]: [isFailure(fa) ? that : fa]. *)
Definition orElse {E1 E2 A} (that : Result E2 A) (fa : Result E1 A)
  : Result E2 A :=
  match fa with
  | Failure _ => that
  | Success a => Success a
  end.

(** [separate(onEmpty)(self)] *)
Definition separate {E A B} (onEmpty : E) (self : Result E (Result A B))
  : Result E A * Result E B :=
  match self with
  | Failure e => (Failure e, Failure e)
  | Success (Failure a) => (of_ a, fail onEmpty)
  | Success (Success b) => (fail onEmpty, of_ b)
  end.

(** Modelled from the spec: [bifunctor.map] (src/Bifunctor.ts is not part of
    the sources), so that [map = bifunctor.map(Bifunctor)] with
    [Bifunctor = { mapBoth }]: the success payload is transformed, a failure
    passes through unchanged. *)
Definition map {E A B} (f : A -> B) (fa : Result E A) : Result E B :=
  mapBoth function.identity f fa.

(** [flatMap(f)(self)]: [isFailure(self) ? self : f(self.success)]. *)
Definition flatMap {E A B} (f : A -> Result E B) (self : Result E A)
  : Result E B :=
  match self with
  | Failure e => Failure e
  | Success a => f a
  end.

(** [Flattenable = { map, flatMap }] *)
Definition Flattenable (E : Type) : flattenable.Flattenable (Result E) :=
  {| flattenable.map := fun A B => @map E A B;
     flattenable.flatMap := fun A B => @flatMap E A B |}.

(** [ap = flattenable.ap(Flattenable)] *)
Definition ap {E A B} (fa : Result E A) (fab : Result E (A -> B))
  : Result E B :=
  flattenable.ap (Flattenable E) fa fab.

(** [Applicative = { map, ap, of }] *)
Definition Applicative (E : Type) : applicative.Applicative (Result E) :=
  {| applicative.map := fun A B => @map E A B;
     applicative.ap := fun A B => @ap E A B;
     applicative.of_ := fun A => @of_ E A |}.

(** [getValidatedApplicative(Semigroup)] *)
Definition getValidatedApplicative {E} (Semigroup : semigroup.Semigroup E)
  : applicative.Applicative (Result E) :=
  {| applicative.map := fun A B => @map E A B;
     applicative.ap := fun A B (fa : Result E A) (fab : Result E (A -> B)) =>
       match fab with
       | Failure e1 =>
           match fa with
           | Failure e2 => fail (semigroup.combine Semigroup e2 e1)
           | Success _ => Failure e1
           end
       | Success g =>
           match fa with
           | Failure e2 => Failure e2
           | Success a => of_ (g a)
           end
       end;
     applicative.of_ := fun A => @of_ E A |}.

(** [Alt = { orElse }] *)
Definition Alt (E : Type) : alt.Alt (Result E) :=
  {| alt.orElse := fun A => @orElse E E A |}.

(** [getValidatedAlt(Semigroup)] *)
Definition getValidatedAlt {E} (Semigroup : semigroup.Semigroup E)
  : alt.Alt (Result E) :=
  {| alt.orElse := fun A (that self : Result E A) =>
       match self with
       | Success a => Success a
       | Failure e1 =>
           match that with
           | Failure e2 => fail (semigroup.combine Semigroup e2 e1)
           | Success b => Success b
           end
       end |}.

(** ** Stack-safe recursion: FlattenableRec.ts and [flatMapRec] *)

Module flattenableRec.

(** Modelled from the spec: [flattenableRec.tailRec] (src/FlattenableRec.ts
    is not part of the sources), the explicit loop behind [flatMapRec]:
    [let v = f(a); while (isFailure(v)) { v = f(v.failure) }
     return v.success].
    A [while] loop need not terminate, so the embedding counts the remaining
    iterations of the loop body in [fuel]; [None] means that the fuel ran out
    before the loop was left. *)
Fixpoint tailRec_loop {A B} (fuel : nat) (f : A -> Result A B)
  (v : Result A B) : option B :=
  match v with
  | Success b => Some b
  | Failure a =>
      match fuel with
      | O => None
      | S fuel' => tailRec_loop fuel' f (f a)
      end
  end.

Definition tailRec {A B} (fuel : nat) (f : A -> Result A B) (a : A)
  : option B :=
  tailRec_loop fuel f (f a).

End flattenableRec.

(** The step function [flatMapRec] hands to [tailRec]:
    [(e) => isFailure(e) ? of(fail(e.failure))
          : isFailure(e.success) ? fail(f(e.success.failure))
          : of(of(e.success.success))]. *)
Definition flatMapRec_step {A E B} (f : A -> Result E (Result A B))
  (e : Result E (Result A B))
  : Result (Result E (Result A B)) (Result E B) :=
  match e with
  | Failure x => of_ (fail x)
  | Success (Failure a) => fail (f a)
  | Success (Success b) => of_ (of_ b)
  end.

(** [flatMapRec(f) = flow(f, tailRec(step))] *)
Definition flatMapRec {A E B} (fuel : nat) (f : A -> Result E (Result A B))
  : A -> option (Result E B) :=
  function.flow f (flattenableRec.tailRec fuel (flatMapRec_step f)).

(** The meaning of the step function in the words of the specification: an
    outer [Failure] ends the iteration with that failure, an inner [Failure]
    carries the next argument, an inner [Success] ends it with the payload. *)
Inductive flatMapRec_spec {A E B} (f : A -> Result E (Result A B))
  : A -> Result E B -> Prop :=
| spec_terminate_failure a e :
    f a = Failure e -> flatMapRec_spec f a (fail e)
| spec_continue a a' r :
    f a = Success (Failure a') -> flatMapRec_spec f a' r ->
    flatMapRec_spec f a r
| spec_terminate_success a b :
    f a = Success (Success b) -> flatMapRec_spec f a (of_ b).

(** ** The host program: state and thrown values *)

Module host.

(** How a call of a TypeScript function ends: it returns a value or it throws
    one. *)
Inductive Completion (X T : Type) : Type :=
| Normal (value : T)
| Throw (thrown : X).

Arguments Normal {X T} value.
Arguments Throw {X T} thrown.

(** A computation of the host program over the state [St] (whatever a
    callback can observe or change, a log for instance); [X] is the type of
    the values that can be thrown. *)
Definition Host (St X T : Type) : Type := St -> Completion X T * St.

Definition ret {St X T} (v : T) : Host St X T := fun s => (Normal v, s).

Definition throw {St X T} (x : X) : Host St X T := fun s => (Throw x, s).

(** Sequencing: a thrown value skips what follows. *)
Definition bind {St X T U} (c : Host St X T) (k : T -> Host St X U)
  : Host St X U :=
  fun s =>
    match c s with
    | (Normal v, s') => k v s'
    | (Throw x, s') => (Throw x, s')
    end.

(** [try { c } catch (e) { handler(e) }] *)
Definition try_catch {St X T} (c : Host St X T) (handler : X -> Host St X T)
  : Host St X T :=
  fun s =>
    match c s with
    | (Normal v, s') => (Normal v, s')
    | (Throw x, s') => handler x s'
    end.

End host.

Notation "x <- c ;; k" := (host.bind c (fun x => k))
  (at level 61, c at next level, right associativity).

Import host.

(** ** Interop: [fromThrowable], [liftThrowable] *)

(** [fromThrowable(f, onThrow)]:
    [try { return of(f()) } catch (e) { return fail(onThrow(e)) }]. *)
Definition fromThrowable {St X A E} (f : unit -> Host St X A)
  (onThrow : X -> Host St X E) : Host St X (Result E A) :=
  try_catch (a <- f tt ;; ret (of_ a))
            (fun e => e' <- onThrow e ;; ret (fail e')).

(** [liftThrowable(f, onThrow) = (...a) => fromThrowable(() => f(...a), onThrow)];
    the argument list [...a] is one value of type [Args]. *)
Definition liftThrowable {St X Args B E} (f : Args -> Host St X B)
  (onThrow : X -> Host St X E) : Args -> Host St X (Result E B) :=
  fun a => fromThrowable (fun _ => f a) onThrow.

(** ** Combinators run with a callback of the host program *)

(** [flatMap(f)(self)] where [f] may change the host state or throw. *)
Definition flatMap_host {St X E A B} (f : A -> Host St X (Result E B))
  (self : Result E A) : Host St X (Result E B) :=
  match self with
  | Failure e => ret (Failure e)
  | Success a => f a
  end.

(** [match(onError, onSuccess)(self)] with host callbacks. *)
Definition match_host {St X E A B} (onError : E -> Host St X B)
  (onSuccess : A -> Host St X B) (self : Result E A) : Host St X B :=
  match self with
  | Failure e => onError e
  | Success a => onSuccess a
  end.

(** [mapBoth(f, g)(fa)] with host callbacks. *)
Definition mapBoth_host {St X E G A B} (f : E -> Host St X G)
  (g : A -> Host St X B) (fa : Result E A) : Host St X (Result G B) :=
  match fa with
  | Failure e => e' <- f e ;; ret (fail e')
  | Success a => b <- g a ;; ret (of_ b)
  end.

(** [catchAll(onError)(self)] with a host callback. *)
Definition catchAll_host {St X E1 E2 A} (onError : E1 -> Host St X (Result E2 A))
  (self : Result E1 A) : Host St X (Result E2 A) :=
  match self with
  | Failure e => onError e
  | Success a => ret (Success a)
  end.

(** ** Array utilities *)

Module internal.

(** [ReadonlyArray<A>] is a list. *)
Definition ReadonlyArray (A : Type) : Type := list A.

(** [NonEmptyReadonlyArray<A>], an array with an element at index 0, is its
    first element, which is what [_.head(as)] reads, and the rest. *)
Record NonEmptyReadonlyArray (A : Type) : Type :=
  { head : A; tail : list A }.

Arguments head {A} _.
Arguments tail {A} _.

(** A non-empty array used where an array is expected (subtyping). *)
Definition toReadonlyArray {A} (as_ : NonEmptyReadonlyArray A)
  : ReadonlyArray A :=
  head as_ :: tail as_.

(** Modelled from the spec: [_.isNonEmpty(as)] (src/internal.ts is not part
    of the sources), the type guard of non-empty arrays: where it holds,
    [as] is used as a [NonEmptyReadonlyArray]. *)
Definition isNonEmpty {A} (as_ : ReadonlyArray A)
  : option (NonEmptyReadonlyArray A) :=
  match as_ with
  | [] => None
  | a :: rest => Some {| head := a; tail := rest |}
  end.

(** Modelled from the spec: [_.emptyReadonlyArray] (src/internal.ts), the
    empty array. *)
Definition emptyReadonlyArray {A} : ReadonlyArray A := [].

(** [out.push(b)] on the non-empty array being built. *)
Definition push {A} (out : NonEmptyReadonlyArray A) (b : A)
  : NonEmptyReadonlyArray A :=
  {| head := head out; tail := tail out ++ [b] |}.

End internal.

Import internal.

(** [Zip = of(_.emptyReadonlyArray)] *)
Definition Zip {E A} : Result E (ReadonlyArray A) := of_ emptyReadonlyArray.

(** The loop of [traverseNonEmptyReadonlyArrayWithIndex]:
    [for (let i = 1; i < as.length; i++) {
       const e = f(i, as[i]); if (isFailure(e)) { return e }
       out.push(e.success) }
     return of(out)].
    [rest] holds the elements of [as] from index [i] on. *)
Fixpoint traverse_loop {St X A E B} (f : nat -> A -> Host St X (Result E B))
  (i : nat) (rest : list A) (out : NonEmptyReadonlyArray B)
  : Host St X (Result E (NonEmptyReadonlyArray B)) :=
  match rest with
  | [] => ret (of_ out)
  | a :: rest' =>
      e <- f i a ;;
      match e with
      | Failure x => ret (Failure x)
      | Success b => traverse_loop f (S i) rest' (push out b)
      end
  end.

(** [traverseNonEmptyReadonlyArrayWithIndex(f)(as)] *)
Definition traverseNonEmptyReadonlyArrayWithIndex {St X A E B}
  (f : nat -> A -> Host St X (Result E B)) (as_ : NonEmptyReadonlyArray A)
  : Host St X (Result E (NonEmptyReadonlyArray B)) :=
  e <- f 0 (head as_) ;;
  match e with
  | Failure x => ret (Failure x)
  | Success b => traverse_loop f 1 (tail as_) {| head := b; tail := [] |}
  end.

(** [traverseReadonlyArrayWithIndex(f)]:
    [(as) => (_.isNonEmpty(as) ? g(as) : Zip)] with
    [g = traverseNonEmptyReadonlyArrayWithIndex(f)]; the result of [g] is
    used as a [Result<E, ReadonlyArray<B>>]. *)
Definition traverseReadonlyArrayWithIndex {St X A E B}
  (f : nat -> A -> Host St X (Result E B))
  : ReadonlyArray A -> Host St X (Result E (ReadonlyArray B)) :=
  let g := traverseNonEmptyReadonlyArrayWithIndex f in
  fun as_ =>
    match isNonEmpty as_ with
    | Some nea => r <- g nea ;; ret (map toReadonlyArray r)
    | None => ret Zip
    end.

(** [traverseNonEmptyReadonlyArray(f) =
     traverseNonEmptyReadonlyArrayWithIndex(flow(SK, f))] *)
Definition traverseNonEmptyReadonlyArray {St X A E B}
  (f : A -> Host St X (Result E B))
  : NonEmptyReadonlyArray A -> Host St X (Result E (NonEmptyReadonlyArray B)) :=
  traverseNonEmptyReadonlyArrayWithIndex (function.flow2 function.SK f).

(** [traverseReadonlyArray(f) = traverseReadonlyArrayWithIndex(flow(SK, f))] *)
Definition traverseReadonlyArray {St X A E B}
  (f : A -> Host St X (Result E B))
  : ReadonlyArray A -> Host St X (Result E (ReadonlyArray B)) :=
  traverseReadonlyArrayWithIndex (function.flow2 function.SK f).

(** [sequenceReadonlyArray = traverseReadonlyArray(identity)] *)
Definition sequenceReadonlyArray {St X E A}
  : ReadonlyArray (Result E A) -> Host St X (Result E (ReadonlyArray A)) :=
  traverseReadonlyArray (fun e => ret (function.identity e)).

(** ** Vocabulary of the statements about traversals *)

(** [all_succeed f i l s bs s']: called in order on the elements of [l], at
    the indices [i], [i+1], ..., from the host state [s], the callback
    returns a [Success] every time; [bs] are the payloads, in order, and
    [s'] is the host state after the last call. *)
Inductive all_succeed {St X A E B} (f : nat -> A -> Host St X (Result E B))
  : nat -> list A -> St -> list B -> St -> Prop :=
| all_succeed_nil i s : all_succeed f i [] s [] s
| all_succeed_cons i a l s b s1 bs s2 :
    f i a s = (Normal (Success b), s1) ->
    all_succeed f (S i) l s1 bs s2 ->
    all_succeed f i (a :: l) s (b :: bs) s2.

(** A callback that appends the index and the element of every call to a
    log, the host state, and then returns what the pure [g] returns. *)
Definition logged {X A E B} (g : nat -> A -> Result E B)
  : nat -> A -> Host (list (nat * A)) X (Result E B) :=
  fun i a log => (Normal (g i a), log ++ [(i, a)]).

(** ** More of Result.ts *)

(** [getOrElse(onError)(self)]: [isFailure(self) ? onError : self.success]. *)
Definition getOrElse {E A} (onError : A) (self : Result E A) : A :=
  match self with
  | Failure _ => onError
  | Success a => a
  end.

(** [toUnion = match(identity, identity)] *)
Definition toUnion {A} : Result A A -> A :=
  match_ function.identity function.identity.

(** [swap(ma)]: [isFailure(ma) ? of(ma.failure) : fail(ma.success)]. *)
Definition swap {E A} (ma : Result E A) : Result A E :=
  match ma with
  | Failure e => of_ e
  | Success a => fail a
  end.

(** [extend(f)(wa)]: [isFailure(wa) ? wa : of(f(wa))]. *)
Definition extend {E A B} (f : Result E A -> B) (wa : Result E A)
  : Result E B :=
  match wa with
  | Failure e => Failure e
  | Success _ => of_ (f wa)
  end.

(** [duplicate = extend(identity)] *)
Definition duplicate {E A} : Result E A -> Result E (Result E A) :=
  extend function.identity.

(** [flatten = flatMap(identity)] *)
Definition flatten {E A} : Result E (Result E A) -> Result E A :=
  flatMap function.identity.

(** [traverse(F)(f)(ta)]:
    [isFailure(ta) ? F.of(fail(ta.failure)) : pipe(f(ta.success), F.map(of))]. *)
Definition traverse {F : Type -> Type} (F_ : applicative.Applicative F)
  {A B E} (f : A -> F B) (ta : Result E A) : F (Result E B) :=
  match ta with
  | Failure e => applicative.of_ F_ (fail e)
  | Success a => applicative.map F_ of_ (f a)
  end.

(** [compact(onNone)(self)]:
    [isFailure(self) ? self : _.isNone(self.success) ? fail(e)
                                                     : of(self.success.value)];
    [Option<A>] is [option A]. *)
Definition compact {E A} (e : E) (self : Result E (option A)) : Result E A :=
  match self with
  | Failure x => Failure x
  | Success None => fail e
  | Success (Some a) => of_ a
  end.

(** [traverseFilterMap(Applicative)(f, onNone) =
     flow(traverse_(f), Applicative.map(compact(onNone)))] *)
Definition traverseFilterMap {F : Type -> Type}
  (Applicative : applicative.Applicative F) {A B E}
  (f : A -> F (option B)) (onNone : E) : Result E A -> F (Result E B) :=
  function.flow (traverse Applicative f)
                (applicative.map Applicative (compact onNone)).

(** [traversePartitionMap(Applicative)(f, onNone) =
     flow(traverse_(f), Applicative.map(separate(onNone)))] *)
Definition traversePartitionMap {F : Type -> Type}
  (Applicative : applicative.Applicative F) {A B C E}
  (f : A -> F (Result B C)) (onNone : E)
  : Result E A -> F (Result E B * Result E C)%type :=
  function.flow (traverse Applicative f)
                (applicative.map Applicative (separate onNone)).

(** [tapError(onError)(self)]:
    [if (isSuccess(self)) { return self }
     const out = onError(self.failure)
     return isFailure(out) ? out : self]. *)
Definition tapError {E A B} (onError : E -> Result E B) (self : Result E A)
  : Result E A :=
  match self with
  | Success a => Success a
  | Failure e =>
      match onError e with
      | Failure e' => Failure e'
      | Success _ => Failure e
      end
  end.

(** [exists(predicate)(ma)]: [isFailure(ma) ? false : predicate(ma.success)];
    [exists] is a reserved word of Rocq. *)
Definition exists_ {E A} (predicate : A -> bool) (ma : Result E A) : bool :=
  match ma with
  | Failure _ => false
  | Success a => predicate a
  end.

Module eq.

(** [interface Eq<A> { equals: (that: A) => (self: A) => boolean }] *)
Record Eq (A : Type) : Type := { equals : A -> A -> bool }.

Arguments equals {A} _ that self.

(** Modelled from the spec: [eq.fromEquals] (src/Eq.ts is not part of the
    sources): the equality whose [equals] is the given comparison. *)
Definition fromEquals {A} (equals : A -> A -> bool) : Eq A :=
  {| equals := equals |}.

End eq.

(** [elem(E)(a)(ma)]: [isFailure(ma) ? false : E.equals(ma.success)(a)]. *)
Definition elem {E A} (E_ : eq.Eq A) (a : A) (ma : Result E A) : bool :=
  match ma with
  | Failure _ => false
  | Success x => eq.equals E_ x a
  end.

(** [getEq(EE, EA)]: the comparison
    [(that) => (self) =>
       isFailure(self)
         ? isFailure(that) && EE.equals(that.failure)(self.failure)
         : isSuccess(that) && EA.equals(that.success)(self.success)]. *)
Definition getEq {E A} (EE : eq.Eq E) (EA : eq.Eq A) : eq.Eq (Result E A) :=
  eq.fromEquals
    (fun that self =>
       match self with
       | Failure es =>
           match that with
           | Failure et => eq.equals EE et es
           | Success _ => false
           end
       | Success as_ =>
           match that with
           | Failure _ => false
           | Success at_ => eq.equals EA at_ as_
           end
       end).

Module show.

(** [interface Show<A> { show: (a: A) => string }] *)
Record Show (A : Type) : Type := { show : A -> string }.

Arguments show {A} _ a.

End show.

(** [getShow(SE, SA)]: [show(ma)] is the text [fail(...)] around
    [SE.show(ma.failure)] or the text [of(...)] around
    [SA.show(ma.success)]. *)
Definition getShow {E A} (SE : show.Show E) (SA : show.Show A)
  : show.Show (Result E A) :=
  {| show.show := fun ma =>
       match ma with
       | Failure e => ("fail(" ++ show.show SE e ++ ")")%string
       | Success a => ("of(" ++ show.show SA a ++ ")")%string
       end |}.

(** [getSemigroup(S)]: [combine(that)(self)] is
    [isFailure(that) ? self : isFailure(self) ? that
       : of(S.combine(that.success)(self.success))]. *)
Definition getSemigroup {A E} (S : semigroup.Semigroup A)
  : semigroup.Semigroup (Result E A) :=
  {| semigroup.combine := fun that self =>
       match that with
       | Failure _ => self
       | Success at_ =>
           match self with
           | Failure _ => that
           | Success as_ => of_ (semigroup.combine S at_ as_)
           end
       end |}.

(** ** The other combinators of Result.ts run with callbacks of the host
    program

    Every combinator of Result.ts that calls a function it was given, with
    that function a computation of the host program: it may change the host
    state or throw.  The calls are made in the order of the source. *)

(** [c] throws [x] from the host state [s] and leaves the state [s']. *)
Definition throws {St X T} (c : Host St X T) (s : St) (x : X) (s' : St)
  : Prop :=
  c s = (Throw x, s').

(** [c] returns [v] from the host state [s] and leaves the state [s']. *)
Definition returns {St X T} (c : Host St X T) (s : St) (v : T) (s' : St)
  : Prop :=
  c s = (Normal v, s').

(** Modelled from the spec: [fromNullable = _.eitherFromNullable]
    (src/internal.ts is not part of the sources): a missing value becomes
    the supplied failure, a present one a [Success]; a nullable value is an
    [option]. *)
Definition fromNullable {E A} (onNullable : E) (a : option A) : Result E A :=
  match a with
  | None => fail onNullable
  | Some v => of_ v
  end.

(** [liftNullable(f, onNullable)]: [(...a) => from(f(...a))] with
    [from = fromNullable(onNullable)]. *)
Definition liftNullable_host {St X Args B E} (f : Args -> Host St X (option B))
  (onNullable : E) : Args -> Host St X (Result E B) :=
  let from := fromNullable onNullable in
  fun a => o <- f a ;; ret (from o).

(** [flatMapNullable(f, onNullable) = flatMap(liftNullable(f, onNullable))] *)
Definition flatMapNullable_host {St X A B E} (f : A -> Host St X (option B))
  (onNullable : E) : Result E A -> Host St X (Result E B) :=
  flatMap_host (liftNullable_host f onNullable).

(** [extend(f)(wa)]: [isFailure(wa) ? wa : of(f(wa))]. *)
Definition extend_host {St X E A B} (f : Result E A -> Host St X B)
  (wa : Result E A) : Host St X (Result E B) :=
  match wa with
  | Failure e => ret (Failure e)
  | Success _ => b <- f wa ;; ret (of_ b)
  end.

(** [tapError(onError)(self)] *)
Definition tapError_host {St X E A B} (onError : E -> Host St X (Result E B))
  (self : Result E A) : Host St X (Result E A) :=
  match self with
  | Success a => ret (Success a)
  | Failure e =>
      out <- onError e ;;
      match out with
      | Failure e' => ret (Failure e')
      | Success _ => ret (Failure e)
      end
  end.

(** [exists(predicate)(ma)] *)
Definition exists_host {St X E A} (predicate : A -> Host St X bool)
  (ma : Result E A) : Host St X bool :=
  match ma with
  | Failure _ => ret false
  | Success a => predicate a
  end.

(** [elem(E)(a)(ma)]; [equals that self] is the call
    [E.equals(that)(self)]. *)
Definition elem_host {St X E A} (equals : A -> A -> Host St X bool) (a : A)
  (ma : Result E A) : Host St X bool :=
  match ma with
  | Failure _ => ret false
  | Success x => equals x a
  end.

(** The [show] of [getShow(SE, SA)]; [SE_show] and [SA_show] are the calls
    [SE.show] and [SA.show]. *)
Definition getShow_host {St X E A} (SE_show : E -> Host St X string)
  (SA_show : A -> Host St X string) (ma : Result E A) : Host St X string :=
  match ma with
  | Failure e => t <- SE_show e ;; ret ("fail(" ++ t ++ ")")%string
  | Success a => t <- SA_show a ;; ret ("of(" ++ t ++ ")")%string
  end.

(** The comparison [getEq(EE, EA)] hands to [eq.fromEquals]; [&&] does not
    evaluate its right operand when the left one is false. *)
Definition getEq_host {St X E A} (EE_equals : E -> E -> Host St X bool)
  (EA_equals : A -> A -> Host St X bool) (that self : Result E A)
  : Host St X bool :=
  match self with
  | Failure es =>
      match that with
      | Failure et => EE_equals et es
      | Success _ => ret false
      end
  | Success as_ =>
      match that with
      | Failure _ => ret false
      | Success at_ => EA_equals at_ as_
      end
  end.

(** The [combine] of [getSemigroup(S)]; [S_combine that self] is the call
    [S.combine(that)(self)]. *)
Definition getSemigroup_host {St X A E} (S_combine : A -> A -> Host St X A)
  (that self : Result E A) : Host St X (Result E A) :=
  match that with
  | Failure _ => ret self
  | Success at_ =>
      match self with
      | Failure _ => ret that
      | Success as_ => c <- S_combine at_ as_ ;; ret (of_ c)
      end
  end.

(** The [ap] of [getValidatedApplicative(Semigroup)]; the function held by
    [fab] is a function of the host program too. *)
Definition getValidatedApplicative_ap_host {St X E A B}
  (combine : E -> E -> Host St X E)
  (fa : Result E A) (fab : Result E (A -> Host St X B))
  : Host St X (Result E B) :=
  match fab with
  | Failure e1 =>
      match fa with
      | Failure e2 => c <- combine e2 e1 ;; ret (fail c)
      | Success _ => ret (Failure e1)
      end
  | Success g =>
      match fa with
      | Failure e2 => ret (Failure e2)
      | Success a => b <- g a ;; ret (of_ b)
      end
  end.

(** The [orElse] of [getValidatedAlt(Semigroup)]. *)
Definition getValidatedAlt_orElse_host {St X E A}
  (combine : E -> E -> Host St X E) (that self : Result E A)
  : Host St X (Result E A) :=
  match self with
  | Success a => ret (Success a)
  | Failure e1 =>
      match that with
      | Failure e2 => c <- combine e2 e1 ;; ret (fail c)
      | Success b => ret (Success b)
      end
  end.

(** [traverse(F)(f)(ta)]; [F_of] and [F_map] are the calls [F.of(...)] and
    [F.map(...)(...)], and in [pipe(f(ta.success), F.map(of))] the call of
    [f] comes first. *)
Definition traverse_host {St X} {F : Type -> Type}
  (F_of : forall T, T -> Host St X (F T))
  (F_map : forall T U, (T -> U) -> F T -> Host St X (F U))
  {A B E} (f : A -> Host St X (F B)) (ta : Result E A)
  : Host St X (F (Result E B)) :=
  match ta with
  | Failure e => F_of _ (fail e)
  | Success a => fb <- f a ;; F_map _ _ of_ fb
  end.

(** [traverseFilterMap(Applicative)(f, onNone)] *)
Definition traverseFilterMap_host {St X} {F : Type -> Type}
  (F_of : forall T, T -> Host St X (F T))
  (F_map : forall T U, (T -> U) -> F T -> Host St X (F U))
  {A B E} (f : A -> Host St X (F (option B))) (onNone : E)
  (self : Result E A) : Host St X (F (Result E B)) :=
  r <- traverse_host F_of F_map f self ;; F_map _ _ (compact onNone) r.

(** [traversePartitionMap(Applicative)(f, onNone)] *)
Definition traversePartitionMap_host {St X} {F : Type -> Type}
  (F_of : forall T, T -> Host St X (F T))
  (F_map : forall T U, (T -> U) -> F T -> Host St X (F U))
  {A B C E} (f : A -> Host St X (F (Result B C))) (onNone : E)
  (self : Result E A) : Host St X (F (Result E B * Result E C)%type) :=
  r <- traverse_host F_of F_map f self ;; F_map _ _ (separate onNone) r.

(** Modelled from the spec: the loop of [flattenableRec.tailRec]
    (src/FlattenableRec.ts is not part of the sources) with a step function
    of the host program; [None] means that the fuel ran out. *)
Fixpoint tailRec_loop_host {St X A B} (fuel : nat)
  (f : A -> Host St X (Result A B)) (v : Result A B)
  : Host St X (option B) :=
  match v with
  | Success b => ret (Some b)
  | Failure a =>
      match fuel with
      | O => ret None
      | S fuel' => v' <- f a ;; tailRec_loop_host fuel' f v'
      end
  end.

Definition tailRec_host {St X A B} (fuel : nat)
  (f : A -> Host St X (Result A B)) (a : A) : Host St X (option B) :=
  v <- f a ;; tailRec_loop_host fuel f v.

(** The step function of [flatMapRec], where [f] is a function of the host
    program. *)
Definition flatMapRec_step_host {St X A E B}
  (f : A -> Host St X (Result E (Result A B))) (e : Result E (Result A B))
  : Host St X (Result (Result E (Result A B)) (Result E B)) :=
  match e with
  | Failure x => ret (of_ (fail x))
  | Success (Failure a) => r <- f a ;; ret (fail r)
  | Success (Success b) => ret (of_ (of_ b))
  end.

(** [flatMapRec(f) = flow(f, tailRec(step))] *)
Definition flatMapRec_host {St X A E B} (fuel : nat)
  (f : A -> Host St X (Result E (Result A B))) (a : A)
  : Host St X (option (Result E B)) :=
  e <- f a ;; tailRec_host fuel (flatMapRec_step_host f) e.

(** ** FromEither.ts *)

Module fromEither.

(** Modelled from the spec: [Either<E, A>] with [_.left] and [_.right]
    (src/Either.ts and src/internal.ts are not part of the sources), the
    two-branch union this file is written against. *)
Definition Either (E A : Type) : Type := (E + A)%type.

Definition left {E A} (e : E) : Either E A := inl e.

Definition right {E A} (a : A) : Either E A := inr a.

(** [interface FromEither<F> { fromEither: (fa: Either<E, A>) => Kind<F, ..., E, A> }] *)
Record FromEither (F : Type -> Type -> Type) : Type := {
  fromEither : forall E A, Either E A -> F E A
}.

Arguments fromEither {F} _ {E A} fa.

(** Modelled from the spec: the interface [Chain<M>] (src/Chain.ts is not
    part of the sources), of which this file uses [chain]. *)
Record Chain (M : Type -> Type -> Type) : Type := {
  chain : forall E A B, (A -> M E B) -> M E A -> M E B
}.

Arguments chain {M} _ {E A B} f ma.

(** Modelled from the spec: [_.fromOption(onNone)] (src/internal.ts): [None]
    becomes the left value [onNone()], a present value the right value. *)
Definition internal_fromOption {E A} (onNone : unit -> E) (ma : option A)
  : Either E A :=
  match ma with
  | None => left (onNone tt)
  | Some a => right a
  end.

(** [fromOption(F)(onNone)]: [(ma) => F.fromEither(fromOption(ma))]. *)
Definition fromOption {F} (F_ : FromEither F) {E A} (onNone : unit -> E)
  : option A -> F E A :=
  let fromOption := internal_fromOption onNone in
  fun ma => fromEither F_ (fromOption ma).

(** [fromPredicate(F)(predicate)(b)] *)
Definition fromPredicate {F} (F_ : FromEither F) {B} (predicate : B -> bool)
  (b : B) : F B B :=
  fromEither F_ (if predicate b then right b else left b).

(** [fromPredicateOrElse(F)(predicate, onFalse)(b)] *)
Definition fromPredicateOrElse {F} (F_ : FromEither F) {B E}
  (predicate : B -> bool) (onFalse : B -> E) (b : B) : F E B :=
  fromEither F_ (if predicate b then right b else left (onFalse b)).

(** [fromOptionK(F)(onNone)(f)]: [(...a) => from(f(...a))] with
    [from = fromOption(F)(onNone)]. *)
Definition fromOptionK {F} (F_ : FromEither F) {E Args B} (onNone : unit -> E)
  (f : Args -> option B) : Args -> F E B :=
  let from := fromOption F_ onNone in
  fun a => from (f a).

(** [chainOptionK(F, M)(onNone)(f)(ma)]: [pipe(ma, M.chain(from(f)))] with
    [from = fromOptionK(F)(onNone)]. *)
Definition chainOptionK {M} (F_ : FromEither M) (M_ : Chain M) {E A B}
  (onNone : unit -> E) (f : A -> option B) (ma : M E A) : M E B :=
  let from := fromOptionK F_ onNone in
  chain M_ (from f) ma.

(** [fromEitherK(F)(f)]: [(...a) => F.fromEither(f(...a))]. *)
Definition fromEitherK {F} (F_ : FromEither F) {Args E B}
  (f : Args -> Either E B) : Args -> F E B :=
  fun a => fromEither F_ (f a).

(** [chainEitherK(F, M)(f)(ma)]: [pipe(ma, M.chain(fromEitherKF(f)))]. *)
Definition chainEitherK {M} (F_ : FromEither M) (M_ : Chain M) {A E B}
  (f : A -> Either E B) (ma : M E A) : M E B :=
  chain M_ (fromEitherK F_ f) ma.

(** [filterOrElse(F, M)(predicate, onFalse)]:
    [M.chain((b) => F.fromEither(predicate(b) ? _.right(b)
                                              : _.left(onFalse(b))))]. *)
Definition filterOrElse {M} (F_ : FromEither M) (M_ : Chain M) {B E}
  (predicate : B -> bool) (onFalse : B -> E) : M E B -> M E B :=
  chain M_
    (fun b => fromEither F_ (if predicate b then right b else left (onFalse b))).

End fromEither.

(** * Properties *)

Local Open Scope string_scope.

(** ** Alternative: [orElse] and [getValidatedAlt] *)

(** The last element of a list that starts with [e1] does not depend on the
    default. *)
Lemma last_cons_default (E : Type) (es : list E) :
  forall e1 e0 : E, last (e1 :: es) e0 = last es e1.
Proof.
  induction es as [| x es IH]; intros e1 e0; [reflexivity |].
  change (last (e1 :: x :: es) e0) with (last (x :: es) e0).
  rewrite (IH x e0), (IH x e1). reflexivity.
Qed.

(** C5: [orElse(fallback)(self)] returns [self] unchanged when [self] is a
    [Success], and returns [fallback] verbatim otherwise, even when
    [fallback] is itself a [Failure].  Hence under chaining the last failure
    wins: a failure followed by any number of failed fallbacks ends as the
    last of them; [orElse(fail("b"))(fail("a"))] is [fail("b")],
    [orElse(succeed(2))(fail("a"))] is [succeed(2)] and
    [orElse(x)(succeed(1))] is [succeed(1)] for every [x]. *)
Theorem orElse_last_failure_wins :
  (forall (E1 E2 A : Type) (a : A) (fallback : Result E2 A),
      orElse fallback (of_ a : Result E1 A) = of_ a)
  /\ (forall (E1 E2 A : Type) (e : E1) (fallback : Result E2 A),
      orElse fallback (fail e : Result E1 A) = fallback)
  /\ (forall (E A : Type) (e0 : E) (es : list E),
      fold_left (fun (self that : Result E A) => orElse that self)
                (List.map fail es) (fail e0)
      = fail (last es e0))
  /\ orElse (fail "b") (fail "a" : Result string nat) = fail "b"
  /\ orElse (of_ 2 : Result string nat) (fail "a" : Result string nat) = of_ 2
  /\ (forall x : Result string nat,
      orElse x (of_ 1 : Result string nat) = of_ 1).
Proof.
  repeat split; try reflexivity.
  intros E A e0 es. revert e0.
  induction es as [| e1 es IH]; intros e0; [reflexivity |].
  cbn [List.map fold_left]. change (orElse (fail e1) (fail e0)) with (@fail E A e1).
  rewrite IH, last_cons_default. reflexivity.
Qed.

(** The example in the documentation of [getValidatedAlt]: with the
    semigroup [pipe(string.Semigroup, S.intercalate(', '))], the failure of
    [self] comes first in the combined text. *)
Example getValidatedAlt_parseAll :
  alt.orElse
    (getValidatedAlt (semigroup.intercalate ", " string_.Semigroup))
    (fail "not a number" : Result string nat) (fail "not a string")
  = fail "not a string, not a number".
Proof. reflexivity. Qed.

(** C1: for every semigroup [S], the [orElse] of [getValidatedAlt(S)] on two
    failures returns a [Failure] whose payload is [S.combine] with the
    failure of the fallback as its first (left) argument and the failure of
    [self] as its second (right) argument; a [Success] [self] is returned
    unchanged whatever the fallback is, so a failed fallback is never
    consulted; a failed [self] with a successful fallback gives the
    fallback. *)
Theorem getValidatedAlt_orElse_combines :
  forall (E A : Type) (S : semigroup.Semigroup E),
    (forall fallbackFailure selfFailure : E,
        alt.orElse (getValidatedAlt S)
          (fail fallbackFailure : Result E A) (fail selfFailure)
        = fail (semigroup.combine S fallbackFailure selfFailure))
    /\ (forall (a : A) (fallback : Result E A),
        alt.orElse (getValidatedAlt S) fallback (of_ a) = of_ a)
    /\ (forall (b : A) (selfFailure : E),
        alt.orElse (getValidatedAlt S) (of_ b) (fail selfFailure) = of_ b).
Proof.
  intros E A S. repeat split.
Qed.

(** ** Applicative: [ap] and [getValidatedApplicative] *)

(** The shape of [ap] on [Result], by cases on the function side first. *)
Lemma ap_cases (E A B : Type) (fa : Result E A) (fab : Result E (A -> B)) :
  ap fa fab =
  match fab with
  | Failure e1 => Failure e1
  | Success g =>
      match fa with
      | Failure e2 => Failure e2
      | Success a => Success (g a)
      end
  end.
Proof. destruct fab, fa; reflexivity. Qed.

(** C4: the default [ap] is fail-fast and left-to-right.  If [fab] is a
    [Failure], [ap(fa)(fab)] is that failure whatever [fa] is, in particular
    [ap(fail(e2))(fail(e1))] is [fail(e1)]; otherwise, if [fa] is a
    [Failure], that failure is returned; otherwise the result is the
    [Success] of the function of [fab] applied to the payload of [fa]. *)
Theorem ap_fail_fast_left_to_right :
  forall (E A B : Type),
    (forall (e1 : E) (fa : Result E A),
        ap fa (fail e1 : Result E (A -> B)) = fail e1)
    /\ (forall e1 e2 : E,
        ap (fail e2 : Result E A) (fail e1 : Result E (A -> B)) = fail e1)
    /\ (forall (g : A -> B) (e2 : E), ap (fail e2) (of_ g) = fail e2)
    /\ (forall (g : A -> B) (a : A),
        ap (of_ a : Result E A) (of_ g) = of_ (g a)).
Proof.
  intros E A B. repeat split; intros; rewrite ap_cases; reflexivity.
Qed.

(** C3: for every semigroup [S], the [ap] of [getValidatedApplicative(S)] on
    two failures returns one [Failure] whose payload combines the two
    payloads with [S]; when exactly one side is a [Failure] that failure is
    returned unchanged; when both are [Success] the function is applied to
    the argument.  For the string-concatenation semigroup with separator
    [sep], [ap(fail("b"))(fail("a"))] is [fail("a" + sep + "b")]. *)
Theorem getValidatedApplicative_ap_combines :
  (forall (E A B : Type) (S : semigroup.Semigroup E),
      (forall e_fa e_fab : E,
          applicative.ap (getValidatedApplicative S)
            (fail e_fa : Result E A) (fail e_fab : Result E (A -> B))
          = fail (semigroup.combine S e_fa e_fab))
      /\ (forall (e_fab : E) (a : A),
          applicative.ap (getValidatedApplicative S)
            (of_ a) (fail e_fab : Result E (A -> B)) = fail e_fab)
      /\ (forall (g : A -> B) (e_fa : E),
          applicative.ap (getValidatedApplicative S) (fail e_fa) (of_ g)
          = fail e_fa)
      /\ (forall (g : A -> B) (a : A),
          applicative.ap (getValidatedApplicative S) (of_ a) (of_ g)
          = of_ (g a)))
  /\ (forall (A B : Type) (sep a b : string),
      applicative.ap
        (getValidatedApplicative (semigroup.intercalate sep string_.Semigroup))
        (fail b : Result string A) (fail a : Result string (A -> B))
      = fail (a ++ sep ++ b)).
Proof.
  split.
  - intros E A B S. repeat split.
  - intros A B sep a b. reflexivity.
Qed.

(** ** Monad: [flatMap] *)

(** C8: [flatMap] short-circuits on failure: [flatMap(f)(fail(e))] is
    [fail(e)] whatever [f] is, and [f] is not called (a callback of the host
    program leaves the host state as it was); once a [Failure] appears in a
    chain, every later [flatMap] propagates it unchanged; and
    [flatMap(f)(succeed(a))] is [f(a)] as it is. *)
Theorem flatMap_short_circuits :
  forall (E A B : Type),
    (forall (e : E) (f : A -> Result E B), flatMap f (fail e) = fail e)
    /\ (forall (a : A) (f : A -> Result E B), flatMap f (of_ a) = f a)
    /\ (forall (e : E) (fs : list (A -> Result E A)),
        fold_left (fun r f => flatMap f r) fs (fail e) = fail e)
    /\ (forall (St X : Type) (e : E) (f : A -> Host St X (Result E B)) (s : St),
        flatMap_host f (fail e) s = (Normal (fail e), s))
    /\ (forall (St X : Type) (a : A) (f : A -> Host St X (Result E B)),
        flatMap_host f (of_ a) = f a).
Proof.
  intros E A B. repeat split.
  intros e fs. induction fs as [| f fs IH]; [reflexivity | exact IH].
Qed.

(** ** Filterable: [separate] *)

(** C7: [separate(e)(self)] returns a pair: an outer [Failure] gives that
    same failure in both components; a [Success] wrapping an inner
    [Failure(b)] gives [(Success(b), Failure(e))]; a [Success] wrapping an
    inner [Success(c)] gives [(Failure(e), Success(c))]. *)
Theorem separate_cases :
  forall (E B C : Type) (e : E),
    (forall e0 : E,
        separate e (Failure e0 : Result E (Result B C))
        = (Failure e0, Failure e0))
    /\ (forall b : B,
        separate e (Success (Failure b) : Result E (Result B C))
        = (Success b, Failure e))
    /\ (forall c : C,
        separate e (Success (Success c) : Result E (Result B C))
        = (Failure e, Success c)).
Proof.
  intros E B C e. repeat split.
Qed.

(** ** Stack-safe recursion: [flatMapRec] *)

Section FlatMapRec.

Variables A E B : Type.
Variable f : A -> Result E (Result A B).

(** What one call of the step function does to the run. *)
Lemma flatMapRec_outer_failure (a : A) (e : E) :
  f a = Failure e -> forall fuel, flatMapRec fuel f a = Some (fail e).
Proof.
  intros Hf fuel. unfold flatMapRec, function.flow, flattenableRec.tailRec.
  rewrite Hf. destruct fuel; reflexivity.
Qed.

Lemma flatMapRec_inner_failure (a a' : A) :
  f a = Success (Failure a') ->
  forall fuel, flatMapRec (S fuel) f a = flatMapRec fuel f a'.
Proof.
  intros Hf fuel. unfold flatMapRec, function.flow, flattenableRec.tailRec.
  rewrite Hf. reflexivity.
Qed.

Lemma flatMapRec_inner_success (a : A) (b : B) :
  f a = Success (Success b) -> forall fuel, flatMapRec fuel f a = Some (of_ b).
Proof.
  intros Hf fuel. unfold flatMapRec, function.flow, flattenableRec.tailRec.
  rewrite Hf. destruct fuel; reflexivity.
Qed.

(** A request to continue uses up one unit of fuel. *)
Lemma flatMapRec_out_of_fuel (a a' : A) :
  f a = Success (Failure a') -> flatMapRec 0 f a = None.
Proof.
  intros Hf. unfold flatMapRec, function.flow, flattenableRec.tailRec.
  rewrite Hf. reflexivity.
Qed.

(** Whatever the loop returns is what the specification describes. *)
Lemma flatMapRec_sound :
  forall fuel a r, flatMapRec fuel f a = Some r -> flatMapRec_spec f a r.
Proof.
  induction fuel as [| fuel IH]; intros a r Hrun.
  - destruct (f a) as [e | [a' | b]] eqn:Hf.
    + rewrite (flatMapRec_outer_failure _ _ Hf) in Hrun.
      injection Hrun as <-. now apply spec_terminate_failure.
    + rewrite (flatMapRec_out_of_fuel _ _ Hf) in Hrun. discriminate.
    + rewrite (flatMapRec_inner_success _ _ Hf) in Hrun.
      injection Hrun as <-. now apply spec_terminate_success.
  - destruct (f a) as [e | [a' | b]] eqn:Hf.
    + rewrite (flatMapRec_outer_failure _ _ Hf) in Hrun.
      injection Hrun as <-. now apply spec_terminate_failure.
    + rewrite (flatMapRec_inner_failure _ _ Hf) in Hrun.
      apply spec_continue with a'; [exact Hf | now apply IH].
    + rewrite (flatMapRec_inner_success _ _ Hf) in Hrun.
      injection Hrun as <-. now apply spec_terminate_success.
Qed.

(** Every result of the specification is reached with enough fuel: one unit
    for each request to continue. *)
Lemma flatMapRec_complete :
  forall a r, flatMapRec_spec f a r -> exists fuel, flatMapRec fuel f a = Some r.
Proof.
  induction 1 as [a e Hf | a a' r Hf _ [fuel IH] | a b Hf].
  - exists 0. now apply flatMapRec_outer_failure.
  - exists (S fuel). now rewrite (flatMapRec_inner_failure _ _ Hf).
  - exists 0. now apply flatMapRec_inner_success.
Qed.

(** More fuel never changes a result. *)
Lemma flatMapRec_fuel_monotone :
  forall fuel fuel' a r,
    flatMapRec fuel f a = Some r -> fuel <= fuel' ->
    flatMapRec fuel' f a = Some r.
Proof.
  induction fuel as [| fuel IH]; intros fuel' a r Hrun Hle.
  - destruct (f a) as [e | [a' | b]] eqn:Hf.
    + rewrite (flatMapRec_outer_failure _ _ Hf) in *. exact Hrun.
    + rewrite (flatMapRec_out_of_fuel _ _ Hf) in Hrun. discriminate.
    + rewrite (flatMapRec_inner_success _ _ Hf) in *. exact Hrun.
  - destruct fuel' as [| fuel']; [lia |].
    destruct (f a) as [e | [a' | b]] eqn:Hf.
    + rewrite (flatMapRec_outer_failure _ _ Hf) in *. exact Hrun.
    + rewrite (flatMapRec_inner_failure _ _ Hf) in *.
      apply IH; [exact Hrun | lia].
    + rewrite (flatMapRec_inner_success _ _ Hf) in *. exact Hrun.
Qed.

End FlatMapRec.

(** C6: [flatMapRec(f)(a)] iterates the step function [f], and at every step:
    an outer [Failure(e)] from [f] ends the whole computation with
    [fail(e)]; a [Success] wrapping an inner [Failure(a')] continues the
    iteration by applying [f] to [a']; a [Success] wrapping an inner
    [Success(b)] ends the computation with [succeed(b)].  The results of
    the loop, given enough iterations, are exactly those this reading
    describes. *)
Theorem flatMapRec_iterates_step :
  forall (A E B : Type) (f : A -> Result E (Result A B)) (a : A),
    (forall e, f a = Failure e ->
               forall fuel, flatMapRec fuel f a = Some (fail e))
    /\ (forall a', f a = Success (Failure a') ->
                   forall fuel, flatMapRec (S fuel) f a = flatMapRec fuel f a')
    /\ (forall b, f a = Success (Success b) ->
                  forall fuel, flatMapRec fuel f a = Some (of_ b))
    /\ (forall r, flatMapRec_spec f a r <->
                  exists fuel, forall fuel', fuel <= fuel' ->
                                             flatMapRec fuel' f a = Some r).
Proof.
  intros A E B f a. repeat split.
  - intros e Hf. now apply flatMapRec_outer_failure.
  - intros a' Hf. now apply flatMapRec_inner_failure.
  - intros b Hf. now apply flatMapRec_inner_success.
  - intros Hspec. apply flatMapRec_complete in Hspec as [fuel Hrun].
    exists fuel. intros fuel' Hle.
    now apply flatMapRec_fuel_monotone with fuel.
  - intros [fuel Hrun]. apply flatMapRec_sound with fuel.
    apply Hrun. lia.
Qed.

(** A countdown: [n + 1] asks to continue with [n], [0] stops with a
    success.  From 3 the loop stops after three requests to continue. *)
Lemma flatMapRec_iterates_step_witness :
  let f := fun n : nat =>
             match n with
             | O => Success (Success "done") : Result string (Result nat string)
             | S m => Success (Failure m)
             end in
  flatMapRec 3 f 3 = Some (of_ "done")
  /\ flatMapRec 1 f 1 = flatMapRec 0 f 0
  /\ flatMapRec_spec f 0 (of_ "done").
Proof.
  intros f.
  destruct (flatMapRec_iterates_step nat string string f 0) as (_ & _ & Hstop & Hspec).
  destruct (flatMapRec_iterates_step nat string string f 1) as (_ & Hcont & _ & _).
  split; [reflexivity |].
  split; [apply Hcont; reflexivity |].
  apply Hspec. exists 0. intros fuel' _. apply Hstop. reflexivity.
Defined.

(** ** Array traversals *)

Local Open Scope list_scope.

Lemma isNonEmpty_toReadonlyArray (A : Type) (l : ReadonlyArray A)
  (nea : NonEmptyReadonlyArray A) :
  isNonEmpty l = Some nea -> toReadonlyArray nea = l.
Proof.
  destruct l as [| a rest]; cbn; [discriminate |].
  intros [= <-]. reflexivity.
Qed.

Section Traverse.

Variables St X A E B : Type.
Variable f : nat -> A -> Host St X (Result E B).

(** The loop goes through a prefix on which the callback succeeds: it
    arrives at the rest of the array with the payloads pushed in order and
    with the host state the calls have left. *)
Lemma traverse_loop_prefix :
  forall i pre s bs s1,
    all_succeed f i pre s bs s1 ->
    forall (rest : list A) (out : NonEmptyReadonlyArray B),
      traverse_loop f i (pre ++ rest) out s
      = traverse_loop f (i + length pre) rest
          {| head := head out; tail := tail out ++ bs |} s1.
Proof.
  induction 1 as [i s | i a l s b s1 bs s2 Hcall _ IH]; intros rest out.
  - destruct out as [h t]. cbn [app length head tail].
    now rewrite Nat.add_0_r, app_nil_r.
  - cbn [app traverse_loop length]. unfold bind at 1. rewrite Hcall.
    rewrite IH. cbn [push head tail].
    now rewrite <- app_assoc, Nat.add_succ_r.
Qed.

(** The first call, on the element at index 0. *)
Lemma traverse_head_success (h : A) (t : list A) (s s0 : St) (b : B) :
  f 0 h s = (Normal (Success b), s0) ->
  traverseNonEmptyReadonlyArrayWithIndex f {| head := h; tail := t |} s
  = traverse_loop f 1 t {| head := b; tail := [] |} s0.
Proof.
  intros Hcall. unfold traverseNonEmptyReadonlyArrayWithIndex, bind.
  cbn [head tail]. now rewrite Hcall.
Qed.

(** All calls succeed: the payloads come back in the order of the array. *)
Lemma traverseNonEmpty_all_succeed (as_ : NonEmptyReadonlyArray A)
  (s : St) (bs : list B) (s' : St) :
  all_succeed f 0 (toReadonlyArray as_) s bs s' ->
  exists out : NonEmptyReadonlyArray B,
    toReadonlyArray out = bs
    /\ traverseNonEmptyReadonlyArrayWithIndex f as_ s = (Normal (of_ out), s').
Proof.
  destruct as_ as [h t]. unfold toReadonlyArray. cbn [head tail].
  intros Hall. inversion Hall as [| i a l s0 b s1 bs' s2 Hcall Hrest]; subst.
  exists {| head := b; tail := bs' |}. split; [reflexivity |].
  rewrite traverse_head_success with (1 := Hcall).
  rewrite <- (app_nil_r t), traverse_loop_prefix with (1 := Hrest).
  reflexivity.
Qed.

(** The callback does not return a [Success] at the element [a], after a
    prefix on which it succeeds: the traversal ends there, with what that
    call has produced and in the host state that call has left. *)
Lemma traverseNonEmpty_stops (as_ : NonEmptyReadonlyArray A)
  (pre : list A) (a : A) (post : list A) (s : St) (bs : list B) (s1 : St) :
  toReadonlyArray as_ = pre ++ a :: post ->
  all_succeed f 0 pre s bs s1 ->
  traverseNonEmptyReadonlyArrayWithIndex f as_ s
  = (e <- f (length pre) a ;;
     match e with
     | Failure x => ret (Failure x)
     | Success b =>
         traverse_loop f (S (length pre)) post
           {| head := hd b bs; tail := tl (bs ++ [b]) |}
     end) s1.
Proof.
  destruct as_ as [h t]. unfold toReadonlyArray. cbn [head tail].
  intros Hsplit Hall.
  inversion Hall as [i s0 | i p l s0 b s2 bs' s3 Hcall Hrest]; subst.
  - cbn [app] in Hsplit. injection Hsplit as -> ->. reflexivity.
  - cbn [app] in Hsplit. injection Hsplit as -> ->.
    rewrite traverse_head_success with (1 := Hcall).
    rewrite traverse_loop_prefix with (1 := Hrest). reflexivity.
Qed.

Lemma traverseNonEmpty_first_failure (as_ : NonEmptyReadonlyArray A)
  (pre : list A) (a : A) (post : list A) (s : St) (bs : list B) (s1 : St)
  (e : E) (s2 : St) :
  toReadonlyArray as_ = pre ++ a :: post ->
  all_succeed f 0 pre s bs s1 ->
  f (length pre) a s1 = (Normal (Failure e), s2) ->
  traverseNonEmptyReadonlyArrayWithIndex f as_ s = (Normal (Failure e), s2).
Proof.
  intros Hsplit Hall Hcall.
  rewrite traverseNonEmpty_stops with (1 := Hsplit) (2 := Hall).
  unfold bind. now rewrite Hcall.
Qed.

Lemma traverseNonEmpty_first_throw (as_ : NonEmptyReadonlyArray A)
  (pre : list A) (a : A) (post : list A) (s : St) (bs : list B) (s1 : St)
  (x : X) (s2 : St) :
  toReadonlyArray as_ = pre ++ a :: post ->
  all_succeed f 0 pre s bs s1 ->
  f (length pre) a s1 = (Throw x, s2) ->
  traverseNonEmptyReadonlyArrayWithIndex f as_ s = (Throw x, s2).
Proof.
  intros Hsplit Hall Hcall.
  rewrite traverseNonEmpty_stops with (1 := Hsplit) (2 := Hall).
  unfold bind. now rewrite Hcall.
Qed.

(** The same three facts for arrays that may be empty. *)
Lemma traverseArray_all_succeed (l : ReadonlyArray A) (s : St)
  (bs : list B) (s' : St) :
  all_succeed f 0 l s bs s' ->
  traverseReadonlyArrayWithIndex f l s = (Normal (of_ bs), s').
Proof.
  intros Hall. unfold traverseReadonlyArrayWithIndex.
  destruct (isNonEmpty l) as [nea |] eqn:Hne.
  - apply isNonEmpty_toReadonlyArray in Hne. subst l.
    apply traverseNonEmpty_all_succeed in Hall.
    destruct Hall as (out & <- & Hrun).
    unfold bind. now rewrite Hrun.
  - destruct l; [| discriminate].
    inversion Hall; subst. reflexivity.
Qed.

Lemma traverseArray_first_failure (pre : list A) (a : A) (post : list A)
  (s : St) (bs : list B) (s1 : St) (e : E) (s2 : St) :
  all_succeed f 0 pre s bs s1 ->
  f (length pre) a s1 = (Normal (Failure e), s2) ->
  traverseReadonlyArrayWithIndex f (pre ++ a :: post) s
  = (Normal (Failure e), s2).
Proof.
  intros Hall Hcall. unfold traverseReadonlyArrayWithIndex.
  destruct (isNonEmpty (pre ++ a :: post)) as [nea |] eqn:Hne.
  - apply isNonEmpty_toReadonlyArray in Hne.
    unfold bind at 1.
    now rewrite traverseNonEmpty_first_failure
      with (1 := Hne) (2 := Hall) (3 := Hcall).
  - destruct pre; discriminate.
Qed.

Lemma traverseArray_first_throw (pre : list A) (a : A) (post : list A)
  (s : St) (bs : list B) (s1 : St) (x : X) (s2 : St) :
  all_succeed f 0 pre s bs s1 ->
  f (length pre) a s1 = (Throw x, s2) ->
  traverseReadonlyArrayWithIndex f (pre ++ a :: post) s = (Throw x, s2).
Proof.
  intros Hall Hcall. unfold traverseReadonlyArrayWithIndex.
  destruct (isNonEmpty (pre ++ a :: post)) as [nea |] eqn:Hne.
  - apply isNonEmpty_toReadonlyArray in Hne.
    unfold bind at 1.
    now rewrite traverseNonEmpty_first_throw
      with (1 := Hne) (2 := Hall) (3 := Hcall).
  - destruct pre; discriminate.
Qed.

End Traverse.

(** *** A callback that logs its calls *)

Lemma combine_seq_snoc (A : Type) (l : list A) (a : A) :
  forall i : nat,
    combine (seq i (S (length l))) (l ++ [a])
    = combine (seq i (length l)) l ++ [(i + length l, a)].
Proof.
  induction l as [| x l IH]; intros i.
  - cbn. now rewrite Nat.add_0_r.
  - cbn [length app]. rewrite <- Nat.add_succ_comm.
    change (seq i (S (S (length l)))) with (i :: seq (S i) (S (length l))).
    cbn [combine]. now rewrite IH.
Qed.

Section Logged.

Variables X A E B : Type.
Variable g : nat -> A -> Result E B.

(** Where the pure [g] succeeds on every element of [l], the logging
    callback succeeds on [l] and leaves in the log one entry for each
    element, in the order of the indices. *)
Lemma logged_all_succeed :
  forall (l : list A) (i : nat) (log : list (nat * A)),
    (forall j a, nth_error l j = Some a -> isSuccess (g (i + j) a) = true) ->
    exists bs : list B,
      all_succeed (logged (X := X) g) i l log bs
        (log ++ combine (seq i (length l)) l).
Proof.
  induction l as [| a l IH]; intros i log Hsucc.
  - exists []. cbn. rewrite app_nil_r. constructor.
  - assert (Ha : isSuccess (g i a) = true).
    { rewrite <- (Nat.add_0_r i) at 1. now apply Hsucc. }
    destruct (g i a) as [e | b] eqn:Hg; [discriminate |].
    destruct (IH (S i) (log ++ [(i, a)])) as [bs Hbs].
    { intros j x Hj. rewrite Nat.add_succ_comm. now apply Hsucc. }
    exists (b :: bs). apply all_succeed_cons with (log ++ [(i, a)]).
    + unfold logged. now rewrite Hg.
    + rewrite <- app_assoc in Hbs. exact Hbs.
Qed.

(** The first failure of [g] is at index [length pre]: the traversal returns
    it, and the log has grown by the calls at the indices [0] to
    [length pre] and by nothing else. *)
Lemma traverseArray_logged_first_failure (pre : list A) (a : A)
  (post : list A) (e : E) (log : list (nat * A)) :
  (forall j x, nth_error pre j = Some x -> isSuccess (g j x) = true) ->
  g (length pre) a = Failure e ->
  traverseReadonlyArrayWithIndex (logged (X := X) g) (pre ++ a :: post) log
  = (Normal (Failure e),
     log ++ combine (seq 0 (S (length pre))) (pre ++ [a])).
Proof.
  intros Hpre Ha.
  destruct (logged_all_succeed pre 0 log Hpre) as [bs Hbs].
  rewrite traverseArray_first_failure
    with (1 := Hbs) (e := e)
         (s2 := (log ++ combine (seq 0 (length pre)) pre) ++ [(length pre, a)]).
  - now rewrite combine_seq_snoc, app_assoc.
  - unfold logged. now rewrite Ha.
Qed.

(** The payloads the logging callback has produced are those of [g], index
    by index. *)
Lemma logged_payloads :
  forall (i : nat) (l : list A) (log : list (nat * A)) (bs : list B)
         (log' : list (nat * A)),
    all_succeed (logged (X := X) g) i l log bs log' ->
    length bs = length l
    /\ forall j x, nth_error l j = Some x ->
                   exists b, nth_error bs j = Some b /\ g (i + j) x = Success b.
Proof.
  induction 1 as [i s | i a l s b s1 bs s2 Hcall _ [IHlen IH]].
  - split; [reflexivity |]. intros [| j] x Hj; discriminate.
  - split; [cbn; now rewrite IHlen |].
    unfold logged in Hcall. injection Hcall as Hg _.
    intros [| j] x Hj.
    + injection Hj as <-. exists b. now rewrite Nat.add_0_r.
    + rewrite <- Nat.add_succ_comm. now apply IH.
Qed.

(** Where [g] succeeds on every element, the traversal returns the payloads
    of [g] in the order of the array and has called [g] once on every
    element, in the order of the indices. *)
Lemma traverseArray_logged_all_succeed (l : list A) (log : list (nat * A)) :
  (forall j x, nth_error l j = Some x -> isSuccess (g j x) = true) ->
  exists bs : list B,
    length bs = length l
    /\ (forall j x, nth_error l j = Some x ->
                    exists b, nth_error bs j = Some b /\ g j x = Success b)
    /\ traverseReadonlyArrayWithIndex (logged (X := X) g) l log
       = (Normal (of_ bs), log ++ combine (seq 0 (length l)) l).
Proof.
  intros Hsucc.
  destruct (logged_all_succeed l 0 log Hsucc) as [bs Hbs].
  exists bs. destruct (logged_payloads _ _ _ _ _ Hbs) as [Hlen Hpay].
  repeat split; [exact Hlen | exact Hpay |].
  now apply traverseArray_all_succeed.
Qed.

End Logged.

(** The array of the specification's test: the callback succeeds on ["a"]
    and fails with ["e"] on the empty string; the element after the failing
    one is not in the log. *)
Example traverse_logged_example :
  traverseReadonlyArrayWithIndex
    (logged (X := unit)
       (fun (i : nat) (a : string) =>
          if String.eqb a EmptyString then fail "e" else of_ a : Result string string))
    ["a"; EmptyString; "b"] []
  = (Normal (fail "e"), [(0, "a"); (1, EmptyString)]).
Proof. reflexivity. Qed.

(** An array of successes, gone through with the identity as callback. *)
Lemma all_succeed_identity (St X E A : Type) :
  forall (bs : list A) (i : nat) (s : St),
    all_succeed
      (function.flow2 function.SK
         (fun e => ret (function.identity e) : Host St X (Result E A)))
      i (List.map of_ bs) s bs s.
Proof.
  induction bs as [| b bs IH]; intros i s; cbn.
  - constructor.
  - apply all_succeed_cons with s; [reflexivity | apply IH].
Qed.

(** C2: for every callback [f], the array traversals
    ([traverseNonEmptyReadonlyArrayWithIndex] and the functions built on
    it) call [f] index by index from left to right; they return the first
    [Failure] that [f] produces, unchanged, without calling [f] on any later
    element: the result and the host state are those of the failing call and
    do not depend on the elements after it, and a logging callback has
    logged the indices up to the failing one only.  When [f] succeeds on
    every element, they return a [Success] wrapping the payloads in the
    order of the array.  Both facts are stated for each of the five
    functions: [traverseNonEmptyReadonlyArrayWithIndex],
    [traverseReadonlyArrayWithIndex], [traverseNonEmptyReadonlyArray],
    [traverseReadonlyArray] and [sequenceReadonlyArray]. *)
Theorem traverse_array_short_circuits :
  forall (St X A E B : Type),
    (forall (f : nat -> A -> Host St X (Result E B))
            (as_ : NonEmptyReadonlyArray A) (pre : list A) (a : A)
            (post : list A) (s : St) (bs : list B) (s1 : St) (e : E) (s2 : St),
        toReadonlyArray as_ = pre ++ a :: post ->
        all_succeed f 0 pre s bs s1 ->
        f (length pre) a s1 = (Normal (Failure e), s2) ->
        traverseNonEmptyReadonlyArrayWithIndex f as_ s
        = (Normal (Failure e), s2))
    /\ (forall (f : nat -> A -> Host St X (Result E B))
               (as_ : NonEmptyReadonlyArray A) (s : St) (bs : list B) (s' : St),
        all_succeed f 0 (toReadonlyArray as_) s bs s' ->
        exists out : NonEmptyReadonlyArray B,
          toReadonlyArray out = bs
          /\ traverseNonEmptyReadonlyArrayWithIndex f as_ s
             = (Normal (of_ out), s'))
    /\ (forall (f : A -> Host St X (Result E B)) (pre : list A) (a : A)
               (post : list A) (s : St) (bs : list B) (s1 : St) (e : E)
               (s2 : St),
        all_succeed (function.flow2 function.SK f) 0 pre s bs s1 ->
        f a s1 = (Normal (Failure e), s2) ->
        traverseReadonlyArray f (pre ++ a :: post) s
        = (Normal (Failure e), s2))
    /\ (forall (f : A -> Host St X (Result E B)) (l : list A) (s : St)
               (bs : list B) (s' : St),
        all_succeed (function.flow2 function.SK f) 0 l s bs s' ->
        traverseReadonlyArray f l s = (Normal (of_ bs), s'))
    /\ (forall (g : nat -> A -> Result E B) (pre : list A) (a : A)
               (post : list A) (e : E) (log : list (nat * A)),
        (forall j x, nth_error pre j = Some x -> isSuccess (g j x) = true) ->
        g (length pre) a = Failure e ->
        traverseReadonlyArrayWithIndex (logged (X := X) g)
          (pre ++ a :: post) log
        = (Normal (Failure e),
           log ++ combine (seq 0 (S (length pre))) (pre ++ [a])))
    /\ (forall (g : nat -> A -> Result E B) (l : list A)
               (log : list (nat * A)),
        (forall j x, nth_error l j = Some x -> isSuccess (g j x) = true) ->
        exists bs : list B,
          length bs = length l
          /\ (forall j x, nth_error l j = Some x ->
                          exists b, nth_error bs j = Some b
                                    /\ g j x = Success b)
          /\ traverseReadonlyArrayWithIndex (logged (X := X) g) l log
             = (Normal (of_ bs), log ++ combine (seq 0 (length l)) l))
    /\ (forall (f : nat -> A -> Host St X (Result E B)) (pre : list A) (a : A)
               (post : list A) (s : St) (bs : list B) (s1 : St) (e : E)
               (s2 : St),
        all_succeed f 0 pre s bs s1 ->
        f (length pre) a s1 = (Normal (Failure e), s2) ->
        traverseReadonlyArrayWithIndex f (pre ++ a :: post) s
        = (Normal (Failure e), s2))
    /\ (forall (f : nat -> A -> Host St X (Result E B)) (l : list A) (s : St)
               (bs : list B) (s' : St),
        all_succeed f 0 l s bs s' ->
        traverseReadonlyArrayWithIndex f l s = (Normal (of_ bs), s'))
    /\ (forall (f : A -> Host St X (Result E B))
               (as_ : NonEmptyReadonlyArray A) (pre : list A) (a : A)
               (post : list A) (s : St) (bs : list B) (s1 : St) (e : E)
               (s2 : St),
        toReadonlyArray as_ = pre ++ a :: post ->
        all_succeed (function.flow2 function.SK f) 0 pre s bs s1 ->
        f a s1 = (Normal (Failure e), s2) ->
        traverseNonEmptyReadonlyArray f as_ s = (Normal (Failure e), s2))
    /\ (forall (f : A -> Host St X (Result E B))
               (as_ : NonEmptyReadonlyArray A) (s : St) (bs : list B) (s' : St),
        all_succeed (function.flow2 function.SK f) 0 (toReadonlyArray as_)
          s bs s' ->
        exists out : NonEmptyReadonlyArray B,
          toReadonlyArray out = bs
          /\ traverseNonEmptyReadonlyArray f as_ s = (Normal (of_ out), s'))
    /\ (forall (pre : list B) (e : E) (post : list (Result E B)) (s : St),
        sequenceReadonlyArray (X := X) (List.map of_ pre ++ fail e :: post) s
        = (Normal (fail e), s))
    /\ (forall (bs : list B) (s : St),
        sequenceReadonlyArray (X := X) (List.map (@of_ E B) bs) s
        = (Normal (of_ bs), s)).
Proof.
  intros St X A E B.
  split; [| split; [| split; [| split; [| split; [| split; [| split;
    [| split; [| split; [| split; [| split]]]]]]]]]].
  - intros f as_ pre a post s bs s1 e s2.
    apply traverseNonEmpty_first_failure.
  - intros f as_ s bs s'. apply traverseNonEmpty_all_succeed.
  - intros f pre a post s bs s1 e s2 Hall Hcall.
    unfold traverseReadonlyArray.
    now apply traverseArray_first_failure with bs s1.
  - intros f l s bs s' Hall. unfold traverseReadonlyArray.
    now apply traverseArray_all_succeed.
  - intros g pre a post e log.
    apply traverseArray_logged_first_failure.
  - intros g l log. apply traverseArray_logged_all_succeed.
  - intros f pre a post s bs s1 e s2. apply traverseArray_first_failure.
  - intros f l s bs s'. apply traverseArray_all_succeed.
  - intros f as_ pre a post s bs s1 e s2 Hsplit Hall Hcall.
    unfold traverseNonEmptyReadonlyArray.
    now apply traverseNonEmpty_first_failure with pre a post bs s1.
  - intros f as_ s bs s' Hall. unfold traverseNonEmptyReadonlyArray.
    now apply traverseNonEmpty_all_succeed.
  - intros pre e post s. unfold sequenceReadonlyArray, traverseReadonlyArray.
    apply traverseArray_first_failure with pre s.
    + apply all_succeed_identity.
    + reflexivity.
  - intros bs s. unfold sequenceReadonlyArray, traverseReadonlyArray.
    apply traverseArray_all_succeed. apply all_succeed_identity.
Qed.

Lemma traverse_array_short_circuits_witness :
  let g := fun (i : nat) (a : string) =>
             if String.eqb a EmptyString then fail "e" else of_ a : Result string string in
  traverseNonEmptyReadonlyArrayWithIndex (logged (X := unit) g)
    {| head := "a"; tail := [EmptyString; "b"] |} []
  = (Normal (Failure "e"), [(0, "a"); (1, EmptyString)]).
Proof.
  intros g.
  destruct (traverse_array_short_circuits
              (list (nat * string)) unit string string string)
    as (Hfail & _).
  apply Hfail
    with (pre := ["a"]) (a := EmptyString) (post := ["b"]) (bs := ["a"])
         (s1 := [(0, "a")]).
  - reflexivity.
  - apply all_succeed_cons with [(0, "a")]; [reflexivity | constructor].
  - reflexivity.
Defined.

(** C10: for every callback [f], [traverseReadonlyArrayWithIndex(f)], and
    with it [traverseReadonlyArray(f)] and [sequenceReadonlyArray], applied
    to the empty array returns [Zip], a [Success] wrapping the empty array,
    and does not call [f]: the host state is left as it was, also for a
    callback that would throw. *)
Theorem traverse_empty_array_succeeds :
  forall (St X A E B : Type) (s : St),
    (forall f : nat -> A -> Host St X (Result E B),
        traverseReadonlyArrayWithIndex f [] s = (Normal (of_ []), s))
    /\ (forall f : A -> Host St X (Result E B),
        traverseReadonlyArray f [] s = (Normal (of_ []), s))
    /\ sequenceReadonlyArray (St := St) (X := X) ([] : list (Result E B)) s
       = (Normal (of_ []), s)
    /\ (forall x : X,
        traverseReadonlyArrayWithIndex
          (fun (_ : nat) (_ : A) => throw x : Host St X (Result E B)) [] s
        = (Normal (of_ []), s)).
Proof.
  intros St X A E B s. repeat split.
Qed.

(** ** Callbacks that only return *)

(** With callbacks that neither touch the host state nor throw, the
    combinators run in the host program are the pure combinators. *)
Lemma flatMap_host_pure (St X E A B : Type) (f : A -> Result E B)
  (self : Result E A) :
  flatMap_host (St := St) (X := X) (fun a => ret (f a)) self
  = ret (flatMap f self).
Proof. destruct self; reflexivity. Qed.

Lemma match_host_pure (St X E A B : Type) (onError : E -> B)
  (onSuccess : A -> B) (self : Result E A) :
  match_host (St := St) (X := X)
    (fun e => ret (onError e)) (fun a => ret (onSuccess a)) self
  = ret (match_ onError onSuccess self).
Proof. destruct self; reflexivity. Qed.

Lemma mapBoth_host_pure (St X E G A B : Type) (f : E -> G) (g : A -> B)
  (fa : Result E A) :
  mapBoth_host (St := St) (X := X) (fun e => ret (f e)) (fun a => ret (g a)) fa
  = ret (mapBoth f g fa).
Proof. destruct fa; reflexivity. Qed.

Lemma catchAll_host_pure (St X E1 E2 A : Type) (onError : E1 -> Result E2 A)
  (self : Result E1 A) :
  catchAll_host (St := St) (X := X) (fun e => ret (onError e)) self
  = ret (catchAll onError self).
Proof. destruct self; reflexivity. Qed.

(** ** Interop: thrown values *)

Section Interop.

Variables St X A E : Type.
Variable f : unit -> Host St X A.
Variable onThrow : X -> Host St X E.

Lemma fromThrowable_returns (s : St) (a : A) (s' : St) :
  f tt s = (Normal a, s') ->
  fromThrowable f onThrow s = (Normal (of_ a), s').
Proof.
  intros Hf. unfold fromThrowable, try_catch, bind. now rewrite Hf.
Qed.

(** A value thrown by [f] is handed to [onThrow], in the host state [f] has
    left. *)
Lemma fromThrowable_throws (s : St) (x : X) (s' : St) :
  f tt s = (Throw x, s') ->
  fromThrowable f onThrow s = (e <- onThrow x ;; ret (fail e)) s'.
Proof.
  intros Hf. unfold fromThrowable, try_catch, bind. now rewrite Hf.
Qed.

End Interop.

(** The host versions of the other combinators, with callbacks that only
    return, are the pure combinators. *)
Lemma extend_host_pure (St X E A B : Type) (f : Result E A -> B)
  (wa : Result E A) :
  extend_host (St := St) (X := X) (fun w => ret (f w)) wa = ret (extend f wa).
Proof. destruct wa; reflexivity. Qed.

Lemma tapError_host_pure (St X E A B : Type) (onError : E -> Result E B)
  (self : Result E A) (s : St) :
  tapError_host (X := X) (fun e => ret (onError e)) self s
  = (Normal (tapError onError self), s).
Proof.
  destruct self as [e | a]; [| reflexivity].
  unfold tapError_host, tapError, bind, ret. destruct (onError e); reflexivity.
Qed.

Lemma exists_elem_host_pure (St X E A : Type) (p : A -> bool) (E_ : eq.Eq A)
  (a : A) (ma : Result E A) :
  exists_host (St := St) (X := X) (fun x => ret (p x)) ma = ret (exists_ p ma)
  /\ elem_host (St := St) (X := X)
       (fun that self => ret (eq.equals E_ that self)) a ma
     = ret (elem E_ a ma).
Proof. destruct ma; split; reflexivity. Qed.

Lemma getShow_getEq_host_pure (St X E A : Type) (SE : show.Show E)
  (SA : show.Show A) (EE : eq.Eq E) (EA : eq.Eq A) (that self : Result E A) :
  getShow_host (St := St) (X := X)
    (fun e => ret (show.show SE e)) (fun a => ret (show.show SA a)) self
  = ret (show.show (getShow SE SA) self)
  /\ getEq_host (St := St) (X := X)
       (fun x y => ret (eq.equals EE x y)) (fun x y => ret (eq.equals EA x y))
       that self
     = ret (eq.equals (getEq EE EA) that self).
Proof. destruct that, self; split; reflexivity. Qed.

Lemma semigroups_host_pure (St X E A : Type) (SA : semigroup.Semigroup A)
  (SE : semigroup.Semigroup E) (that self : Result E A) :
  getSemigroup_host (St := St) (X := X)
    (fun x y => ret (semigroup.combine SA x y)) that self
  = ret (semigroup.combine (getSemigroup SA) that self)
  /\ getValidatedAlt_orElse_host (St := St) (X := X)
       (fun x y => ret (semigroup.combine SE x y)) that self
     = ret (alt.orElse (getValidatedAlt SE) that self).
Proof. destruct that, self; split; reflexivity. Qed.

Lemma getValidatedApplicative_ap_host_pure (St X E A B : Type)
  (S : semigroup.Semigroup E) (fa : Result E A) (fab : Result E (A -> B)) :
  getValidatedApplicative_ap_host (St := St) (X := X)
    (fun x y => ret (semigroup.combine S x y)) fa
    (mapBoth function.identity (fun g a => ret (g a)) fab)
  = ret (applicative.ap (getValidatedApplicative S) fa fab).
Proof. destruct fa, fab; reflexivity. Qed.

Lemma tailRec_loop_host_pure (St X A E B : Type)
  (f : A -> Result E (Result A B)) :
  forall (fuel : nat) (v : Result (Result E (Result A B)) (Result E B))
         (s : St),
    tailRec_loop_host (X := X) fuel
      (flatMapRec_step_host (fun a => ret (f a))) v s
    = (Normal (flattenableRec.tailRec_loop fuel (flatMapRec_step f) v), s).
Proof.
  induction fuel as [| fuel IH]; intros [e | r] s; try reflexivity.
  cbn [tailRec_loop_host flattenableRec.tailRec_loop]. unfold bind at 1.
  destruct e as [x | [a | b]]; cbn; apply IH.
Qed.

Lemma flatMapRec_host_pure (St X A E B : Type)
  (f : A -> Result E (Result A B)) (fuel : nat) (a : A) (s : St) :
  flatMapRec_host (X := X) fuel (fun a => ret (f a)) a s
  = (Normal (flatMapRec fuel f a), s).
Proof.
  unfold flatMapRec_host, flatMapRec, function.flow, tailRec_host,
    flattenableRec.tailRec, bind, ret.
  destruct (f a) as [x | [a' | b]]; cbn; apply tailRec_loop_host_pure.
Qed.

(** A request to continue, in the host program: the run goes on from the
    next argument with one iteration less. *)
Lemma flatMapRec_host_continue (St X A E B : Type)
  (f : A -> Host St X (Result E (Result A B))) (fuel : nat) (a a' : A)
  (s s1 : St) :
  f a s = (Normal (Success (Failure a')), s1) ->
  flatMapRec_host (S fuel) f a s = flatMapRec_host fuel f a' s1.
Proof.
  intros Hf. unfold flatMapRec_host, tailRec_host, bind. rewrite Hf.
  cbn. unfold bind. destruct (f a' s1) as [[r | x] s2]; reflexivity.
Qed.

(** Rewrites with the calls known to throw or to return, and computes. *)
Ltac thrown_value_passes :=
  unfold throws, returns in *; intros;
  unfold liftNullable_host, flatMapNullable_host, flatMap_host,
    liftNullable_host;
  cbn; unfold bind;
  repeat match goal with
         | H : _ = (_, _) |- _ => rewrite H; cbn; unfold bind
         end;
  try reflexivity; try assumption.

(** C9: [fromThrowable(f, onThrow)] returns [succeed(f())] whenever [f]
    returns normally; when [f] throws a value [x], it catches it and returns
    [fail(onThrow(x))].  The value thrown by [f] never escapes: with a
    mapping [onThrow] that returns, [fromThrowable] returns, and a value that
    leaves [fromThrowable] was thrown by [onThrow].  [liftThrowable] is
    [fromThrowable] on the call of the lifted function.  Nothing else
    catches: every other combinator of Result.ts that calls a function it
    was given lets a value thrown by that function through, on every branch
    that makes the call, and leaves the host state as the call has left it.
    These are [match], [mapBoth], [catchAll], [flatMap], [flatMapRec],
    [extend], [tapError], [exists], [elem], [liftNullable],
    [flatMapNullable], the functions of [getShow], [getEq], [getSemigroup],
    [getValidatedApplicative] and [getValidatedAlt], [traverse],
    [traverseFilterMap], [traversePartitionMap] and the array traversals. *)
Theorem fromThrowable_catches_thrown_value :
  forall (St X A E : Type) (f : unit -> Host St X A)
         (onThrow : X -> Host St X E) (s : St),
    (forall a s', f tt s = (Normal a, s') ->
                  fromThrowable f onThrow s = (Normal (of_ a), s'))
    /\ (forall x s' e s'',
           f tt s = (Throw x, s') -> onThrow x s' = (Normal e, s'') ->
           fromThrowable f onThrow s = (Normal (fail e), s''))
    /\ ((forall x s', exists e s'', onThrow x s' = (Normal e, s'')) ->
        exists r s', fromThrowable f onThrow s = (Normal r, s'))
    /\ (forall y s'',
           fromThrowable f onThrow s = (Throw y, s'') ->
           exists x s', f tt s = (Throw x, s') /\ onThrow x s' = (Throw y, s''))
    /\ (forall (Args : Type) (g : Args -> Host St X A) (a : Args),
           liftThrowable g onThrow a = fromThrowable (fun _ => g a) onThrow)
    /\ (forall (B : Type) (k : A -> Host St X (Result E B)) (a : A) x s',
           k a s = (Throw x, s') ->
           flatMap_host k (of_ a) s = (Throw x, s')
           /\ (forall onError : E -> Host St X (Result E B),
                  match_host onError k (of_ a) s = (Throw x, s'))
           /\ (forall (pre post : list A) (s0 : St) (bs : list B),
                  all_succeed (function.flow2 function.SK k) 0 pre s0 bs s ->
                  traverseReadonlyArray k (pre ++ a :: post) s0
                  = (Throw x, s')))
    /\ (forall (B G : Type) (h : A -> Host St X B) (a : A) x s',
           h a s = (Throw x, s') ->
           forall l : E -> Host St X G,
             mapBoth_host l h (of_ a) s = (Throw x, s'))
    /\ (forall (E2 : Type) (h : E -> Host St X (Result E2 A)) (e : E) x s',
           h e s = (Throw x, s') ->
           catchAll_host h (fail e) s = (Throw x, s'))
    /\ (forall (B : Type) (onError : E -> Host St X B)
               (onSuccess : A -> Host St X B) (e : E) x s',
           throws (onError e) s x s' ->
           throws (match_host onError onSuccess (Failure e)) s x s')
    /\ (forall (B G : Type) (l : E -> Host St X G) (h : A -> Host St X B)
               (e : E) x s',
           throws (l e) s x s' ->
           throws (mapBoth_host l h (Failure e)) s x s')
    /\ (forall (B : Type) (k : Result E A -> Host St X B) (a : A) x s',
           throws (k (Success a)) s x s' ->
           throws (extend_host k (Success a)) s x s')
    /\ (forall (B : Type) (h : E -> Host St X (Result E B)) (e : E) x s',
           throws (h e) s x s' ->
           throws (tapError_host h (Failure e : Result E A)) s x s')
    /\ (forall (p : A -> Host St X bool) (a : A) x s',
           throws (p a) s x s' ->
           throws (exists_host p (Success a : Result E A)) s x s')
    /\ (forall (equals : A -> A -> Host St X bool) (a a0 : A) x s',
           throws (equals a0 a) s x s' ->
           throws (elem_host equals a (Success a0 : Result E A)) s x s')
    /\ (forall (B : Type) (k : A -> Host St X (option B)) (onNullable : E)
               (a : A) x s',
           throws (k a) s x s' ->
           throws (liftNullable_host k onNullable a) s x s'
           /\ throws (flatMapNullable_host k onNullable (Success a)) s x s')
    /\ (forall (SE_show : E -> Host St X string)
               (SA_show : A -> Host St X string) x s',
           (forall e, throws (SE_show e) s x s' ->
                      throws (getShow_host SE_show SA_show (Failure e)) s x s')
           /\ (forall a, throws (SA_show a) s x s' ->
                         throws (getShow_host SE_show SA_show (Success a))
                           s x s'))
    /\ (forall (EE_equals : E -> E -> Host St X bool)
               (EA_equals : A -> A -> Host St X bool) x s',
           (forall et es,
               throws (EE_equals et es) s x s' ->
               throws (getEq_host EE_equals EA_equals (Failure et) (Failure es))
                 s x s')
           /\ (forall at_ as_,
                  throws (EA_equals at_ as_) s x s' ->
                  throws (getEq_host EE_equals EA_equals
                            (Success at_) (Success as_)) s x s'))
    /\ (forall (S_combine : A -> A -> Host St X A) (at_ as_ : A) x s',
           throws (S_combine at_ as_) s x s' ->
           throws (getSemigroup_host S_combine
                     (Success at_ : Result E A) (Success as_)) s x s')
    /\ (forall (B : Type) (combine : E -> E -> Host St X E) x s',
           (forall (e2 e1 : E),
               throws (combine e2 e1) s x s' ->
               throws (getValidatedApplicative_ap_host combine
                         (Failure e2 : Result E A)
                         (Failure e1 : Result E (A -> Host St X B))) s x s')
           /\ (forall (g : A -> Host St X B) (a : A),
                  throws (g a) s x s' ->
                  throws (getValidatedApplicative_ap_host combine
                            (Success a) (Success g)) s x s')
           /\ (forall (e2 e1 : E),
                  throws (combine e2 e1) s x s' ->
                  throws (getValidatedAlt_orElse_host combine
                            (Failure e2 : Result E A) (Failure e1)) s x s'))
    /\ (forall (F : Type -> Type) (B : Type)
               (F_of : forall T, T -> Host St X (F T))
               (F_map : forall T U, (T -> U) -> F T -> Host St X (F U))
               (k : A -> Host St X (F B)) x s',
           (forall e : E,
               throws (F_of _ (fail e : Result E B)) s x s' ->
               throws (traverse_host F_of F_map k (Failure e)) s x s')
           /\ (forall a : A,
                  throws (k a) s x s' ->
                  throws (traverse_host F_of F_map k (Success a : Result E A))
                    s x s')
           /\ (forall (a : A) (fb : F B) (s1 : St),
                  returns (k a) s fb s1 ->
                  throws (F_map _ _ (@of_ E B) fb) s1 x s' ->
                  throws (traverse_host F_of F_map k (Success a : Result E A))
                    s x s'))
    /\ (forall (F : Type -> Type) (B C : Type)
               (F_of : forall T, T -> Host St X (F T))
               (F_map : forall T U, (T -> U) -> F T -> Host St X (F U))
               (k : A -> Host St X (F (option B)))
               (k' : A -> Host St X (F (Result B C)))
               (onNone : E) (self : Result E A) x s',
           (throws (traverse_host F_of F_map k self) s x s' ->
            throws (traverseFilterMap_host F_of F_map k onNone self) s x s')
           /\ (forall r s1,
                  returns (traverse_host F_of F_map k self) s r s1 ->
                  throws (F_map _ _ (compact onNone) r) s1 x s' ->
                  throws (traverseFilterMap_host F_of F_map k onNone self)
                    s x s')
           /\ (throws (traverse_host F_of F_map k' self) s x s' ->
               throws (traversePartitionMap_host F_of F_map k' onNone self)
                 s x s')
           /\ (forall r s1,
                  returns (traverse_host F_of F_map k' self) s r s1 ->
                  throws (F_map _ _ (separate onNone) r) s1 x s' ->
                  throws (traversePartitionMap_host F_of F_map k' onNone self)
                    s x s'))
    /\ (forall (B : Type) (k : A -> Host St X (Result E (Result A B)))
               (a : A) (fuel : nat),
           (forall x s', throws (k a) s x s' ->
                         throws (flatMapRec_host fuel k a) s x s')
           /\ (forall a' s1,
                  returns (k a) s (Success (Failure a')) s1 ->
                  flatMapRec_host (S fuel) k a s
                  = flatMapRec_host fuel k a' s1))
    /\ (forall (B : Type) (k : nat -> A -> Host St X (Result E B))
               (pre : list A) (a : A) (post : list A) (s0 : St) (bs : list B)
               x s',
           all_succeed k 0 pre s0 bs s ->
           throws (k (length pre) a) s x s' ->
           throws (traverseReadonlyArrayWithIndex k (pre ++ a :: post)) s0 x s'
           /\ (forall as_ : NonEmptyReadonlyArray A,
                  toReadonlyArray as_ = pre ++ a :: post ->
                  throws (traverseNonEmptyReadonlyArrayWithIndex k as_)
                    s0 x s'))
    /\ (forall (B : Type) (k : A -> Host St X (Result E B))
               (as_ : NonEmptyReadonlyArray A) (pre : list A) (a : A)
               (post : list A) (s0 : St) (bs : list B) x s',
           toReadonlyArray as_ = pre ++ a :: post ->
           all_succeed (function.flow2 function.SK k) 0 pre s0 bs s ->
           throws (k a) s x s' ->
           throws (traverseNonEmptyReadonlyArray k as_) s0 x s').
Proof.
  intros St X A E f onThrow s.
  split; [| split; [| split; [| split; [| split; [| split; [| split]]]]]].
  - intros a s'. apply fromThrowable_returns.
  - intros x s' e s'' Hf Hon.
    rewrite fromThrowable_throws with (1 := Hf).
    unfold bind. now rewrite Hon.
  - intros Htotal. destruct (f tt s) as [[a | x] s'] eqn:Hf.
    + exists (of_ a), s'. now apply fromThrowable_returns.
    + destruct (Htotal x s') as (e & s'' & Hon).
      exists (fail e), s''.
      rewrite fromThrowable_throws with (1 := Hf).
      unfold bind. now rewrite Hon.
  - intros y s'' Hrun. destruct (f tt s) as [[a | x] s'] eqn:Hf.
    + rewrite fromThrowable_returns with (1 := Hf) in Hrun. discriminate.
    + exists x, s'. split; [reflexivity |].
      rewrite fromThrowable_throws with (1 := Hf) in Hrun.
      unfold bind in Hrun.
      destruct (onThrow x s') as [[e | z] s3]; [discriminate |].
      injection Hrun as -> ->. reflexivity.
  - reflexivity.
  - intros B k a x s' Hk. split; [exact Hk | split].
    + intros onError. exact Hk.
    + intros pre post s0 bs Hall. unfold traverseReadonlyArray.
      now apply traverseArray_first_throw with bs s.
  - intros B G h a x s' Hh l. unfold mapBoth_host, of_, bind.
    now rewrite Hh.
  - split.
    { intros E2 h e x s' Hh. exact Hh. }
    split; [thrown_value_passes |].
    split; [thrown_value_passes |].
    split; [thrown_value_passes |].
    split; [thrown_value_passes |].
    split; [thrown_value_passes |].
    split; [thrown_value_passes |].
    split; [intros; split; thrown_value_passes |].
    split; [intros; split; thrown_value_passes |].
    split; [intros; split; thrown_value_passes |].
    split; [thrown_value_passes |].
    split; [intros; split; [| split]; thrown_value_passes |].
    split; [intros; split; [| split]; thrown_value_passes |].
    split.
    { intros F B C F_of F_map k k' onNone self x s'.
      unfold traverseFilterMap_host, traversePartitionMap_host.
      split; [| split; [| split]]; thrown_value_passes. }
    split.
    { intros B k a fuel. split.
      - unfold flatMapRec_host. thrown_value_passes.
      - intros a' s1 Hk. now apply flatMapRec_host_continue. }
    split.
    { intros B k pre a post s0 bs x s' Hall Hk. unfold throws in *. split.
      - now apply traverseArray_first_throw with bs s.
      - intros as_ Hsplit.
        now apply traverseNonEmpty_first_throw with pre a post bs s. }
    intros B k as_ pre a post s0 bs x s' Hsplit Hall Hk.
    unfold throws in *. unfold traverseNonEmptyReadonlyArray.
    now apply traverseNonEmpty_first_throw with pre a post bs s.
Qed.

Lemma fromThrowable_catches_thrown_value_witness :
  fromThrowable (St := unit) (A := nat)
    (fun _ => throw "empty array") (fun x => ret (String.length x)) tt
  = (Normal (fail 11), tt).
Proof.
  destruct (fromThrowable_catches_thrown_value unit string nat nat
              (fun _ : unit => throw "empty array")
              (fun x : string => ret (String.length x)) tt)
    as (_ & Hcatch & _).
  apply Hcatch with (x := "empty array") (s' := tt); reflexivity.
Defined.

(** * Further properties of Result.ts *)

(** ** The two branches: [swap], [mapBoth], [getOrElse] *)

(** X1: [swap] is an involution, it exchanges the two tags, and it turns
    [mapBoth(f, g)] into [mapBoth(g, f)]. *)
Theorem swap_involution_exchanges_branches :
  forall (E A : Type) (r : Result E A),
    swap (swap r) = r
    /\ isFailure (swap r) = isSuccess r
    /\ isSuccess (swap r) = isFailure r
    /\ (forall (G B : Type) (f : E -> G) (g : A -> B),
           swap (mapBoth f g r) = mapBoth g f (swap r)).
Proof.
  intros E A r. destruct r as [e | a]; repeat split.
Qed.

(** X2: [mapBoth] keeps the tag and satisfies the two bifunctor laws: mapping
    with identities changes nothing, and mapping twice is mapping once with
    the composed functions. *)
Theorem mapBoth_bifunctor_laws :
  forall (E A : Type) (r : Result E A),
    mapBoth function.identity function.identity r = r
    /\ (forall (G B : Type) (f : E -> G) (g : A -> B),
           isFailure (mapBoth f g r) = isFailure r)
    /\ (forall (G H B C : Type) (f1 : E -> G) (f2 : G -> H)
               (g1 : A -> B) (g2 : B -> C),
           mapBoth f2 g2 (mapBoth f1 g1 r)
           = mapBoth (function.flow f1 f2) (function.flow g1 g2) r).
Proof.
  intros E A r. destruct r as [e | a]; repeat split.
Qed.

(** X3: a successful fallback makes [orElse] total on successes:
    [orElse(of(d))(r)] is [of(getOrElse(d)(r))]; [getOrElse] commutes with
    [mapBoth]; and [getOrElse(d)] is [toUnion] after the failure is replaced
    by [d]. *)
Theorem getOrElse_orElse_toUnion :
  forall (E A : Type) (d : A) (r : Result E A),
    orElse (of_ d : Result E A) r = of_ (getOrElse d r)
    /\ getOrElse d r = toUnion (mapBoth (fun _ => d) function.identity r)
    /\ (forall (G B : Type) (f : E -> G) (g : A -> B),
           getOrElse (g d) (mapBoth f g r) = g (getOrElse d r)).
Proof.
  intros E A d r. destruct r as [e | a]; repeat split.
Qed.

(** ** Sequencing: [flatMap], [flatten], [catchAll], [orElse] *)

(** X4: [flatMap] with [of] is the identity, [flatMap] is associative, a
    [flatMap] result is a [Success] only when the input was one, [flatten]
    undoes [of], and [flatMap(f)] is [flatten] after mapping with [f]. *)
Theorem flatMap_monad_laws :
  forall (E A : Type) (r : Result E A),
    flatMap of_ r = r
    /\ flatten (of_ r : Result E (Result E A)) = r
    /\ (forall (B : Type) (f : A -> Result E B),
           flatMap f r = flatten (mapBoth function.identity f r))
    /\ (forall (B : Type) (f : A -> Result E B),
           isSuccess (flatMap f r) = true -> isSuccess r = true)
    /\ (forall (B C : Type) (f : A -> Result E B) (g : B -> Result E C),
           flatMap g (flatMap f r) = flatMap (fun a => flatMap g (f a)) r).
Proof.
  intros E A r. destruct r as [e | a]; repeat split; intros; assumption.
Qed.

Lemma flatMap_monad_laws_witness :
  isSuccess (of_ 2 : Result string nat) = true.
Proof.
  destruct (flatMap_monad_laws string nat (of_ 2))
    as (_ & _ & _ & Htag & _).
  apply (Htag nat (fun n => of_ (S n))). reflexivity.
Defined.

(** X5: [catchAll] is [flatMap] on the other branch: it is [flatMap] between
    two [swap]s; recovering with [fail] changes nothing; a [Success] is never
    touched; [catchAll] is associative; and [orElse(that)] is [catchAll] with
    the constant handler. *)
Theorem catchAll_is_flatMap_on_failures :
  forall (E1 A : Type) (r : Result E1 A),
    catchAll fail r = r
    /\ (forall (E2 : Type) (onError : E1 -> Result E2 A),
           catchAll onError r
           = swap (flatMap (fun e => swap (onError e)) (swap r)))
    /\ (forall (E2 : Type) (onError : E1 -> Result E2 A),
           isSuccess r = true -> isSuccess (catchAll onError r) = true)
    /\ (forall (E2 : Type) (that : Result E2 A),
           orElse that r = catchAll (fun _ => that) r)
    /\ (forall (E2 E3 : Type) (f : E1 -> Result E2 A) (g : E2 -> Result E3 A),
           catchAll g (catchAll f r) = catchAll (fun e => catchAll g (f e)) r).
Proof.
  intros E1 A r. destruct r as [e | a]; repeat split; intros;
    try assumption; try reflexivity; try discriminate.
  cbn. destruct (onError e); reflexivity.
Qed.

Lemma catchAll_is_flatMap_on_failures_witness :
  isSuccess (catchAll (fun e : string => fail (String.length e))
                      (of_ 1 : Result string nat)) = true.
Proof.
  destruct (catchAll_is_flatMap_on_failures string nat (of_ 1))
    as (_ & _ & Htag & _).
  apply Htag. reflexivity.
Defined.

(** X6: [orElse] is associative, it distributes over [mapBoth], and its
    result is a [Success] exactly when one of the two operands is. *)
Theorem orElse_alt_laws :
  forall (E1 E2 A : Type) (a : Result E1 A) (b : Result E2 A),
    (forall (E3 : Type) (c : Result E3 A),
        orElse c (orElse b a) = orElse (orElse c b) a)
    /\ isSuccess (orElse b a) = (isSuccess a || isSuccess b)%bool
    /\ (forall (G1 G2 B : Type) (f1 : E1 -> G1) (f2 : E2 -> G2) (g : A -> B),
           mapBoth f2 g (orElse b a)
           = orElse (mapBoth f2 g b) (mapBoth f1 g a)).
Proof.
  intros E1 E2 A a b. destruct a as [e | x]; repeat split.
Qed.

(** ** Collecting failures: [getValidatedAlt], [getValidatedApplicative],
    [getSemigroup] *)

(** Associativity of a semigroup, in the argument order of
    [combine(that)(self)]. *)
Lemma list_semigroup_associative (E : Type) :
  forall x y z : list E,
    semigroup.combine {| semigroup.combine := fun that self => self ++ that |}
      z (semigroup.combine
           {| semigroup.combine := fun that self => self ++ that |} y x)
    = semigroup.combine {| semigroup.combine := fun that self => self ++ that |}
        (semigroup.combine
           {| semigroup.combine := fun that self => self ++ that |} z y) x.
Proof. intros x y z. cbn. now rewrite app_assoc. Qed.

(** X7: with an associative semigroup, the [orElse] of [getValidatedAlt] is
    associative: chaining three alternatives collects the same failure
    whichever pair is tried first. *)
Theorem getValidatedAlt_orElse_associative :
  forall (E A : Type) (S : semigroup.Semigroup E),
    (forall x y z : E,
        semigroup.combine S z (semigroup.combine S y x)
        = semigroup.combine S (semigroup.combine S z y) x) ->
    forall a b c : Result E A,
      alt.orElse (getValidatedAlt S) c (alt.orElse (getValidatedAlt S) b a)
      = alt.orElse (getValidatedAlt S) (alt.orElse (getValidatedAlt S) c b) a.
Proof.
  intros E A S Hassoc a b c.
  destruct a as [ea | xa], b as [eb | xb], c as [ec | xc]; cbn;
    try reflexivity.
  unfold fail. now rewrite Hassoc.
Qed.

Lemma getValidatedAlt_orElse_associative_witness :
  let S := {| semigroup.combine := fun that self : list nat => self ++ that |} in
  alt.orElse (getValidatedAlt S) (fail [3])
    (alt.orElse (getValidatedAlt S) (fail [2]) (fail [1] : Result (list nat) bool))
  = alt.orElse (getValidatedAlt S)
      (alt.orElse (getValidatedAlt S) (fail [3]) (fail [2])) (fail [1]).
Proof.
  intros S.
  apply (getValidatedAlt_orElse_associative (list nat) bool S).
  apply list_semigroup_associative.
Defined.

(** X8: the [orElse] of [getValidatedAlt] differs from the plain [orElse]
    only where both operands fail: it succeeds in the same cases, it is the
    plain [orElse] as soon as one operand is a [Success], and with the
    semigroup that keeps [that] it is the plain [orElse] everywhere. *)
Theorem getValidatedAlt_orElse_versus_orElse :
  forall (E A : Type) (S : semigroup.Semigroup E) (a b : Result E A),
    isSuccess (alt.orElse (getValidatedAlt S) b a)
    = (isSuccess a || isSuccess b)%bool
    /\ ((isSuccess a || isSuccess b)%bool = true ->
        alt.orElse (getValidatedAlt S) b a = orElse b a)
    /\ alt.orElse
         (getValidatedAlt {| semigroup.combine := fun that _ : E => that |}) b a
       = orElse b a.
Proof.
  intros E A S a b. destruct a as [ea | xa], b as [eb | xb]; repeat split;
    intros; try reflexivity; discriminate.
Qed.

Lemma getValidatedAlt_orElse_versus_orElse_witness :
  alt.orElse
    (getValidatedAlt {| semigroup.combine := fun that self : nat => self + that |})
    (of_ true) (fail 1)
  = orElse (of_ true) (fail 1 : Result nat bool).
Proof.
  destruct (getValidatedAlt_orElse_versus_orElse nat bool
              {| semigroup.combine := fun that self : nat => self + that |}
              (fail 1) (of_ true)) as (_ & Hagree & _).
  apply Hagree. reflexivity.
Defined.

(** X9: the [ap] of [getValidatedApplicative] satisfies the applicative laws
    of identity and interchange for every semigroup, and the composition law
    when the semigroup is associative. *)
Theorem getValidatedApplicative_laws :
  forall (E : Type) (S : semigroup.Semigroup E),
    (forall (A : Type) (fa : Result E A),
        applicative.ap (getValidatedApplicative S) fa
          (applicative.of_ (getValidatedApplicative S) (fun a : A => a))
        = fa)
    /\ (forall (A B : Type) (a : A) (fab : Result E (A -> B)),
        applicative.ap (getValidatedApplicative S)
          (applicative.of_ (getValidatedApplicative S) a) fab
        = applicative.ap (getValidatedApplicative S) fab
            (applicative.of_ (getValidatedApplicative S)
               (fun g : A -> B => g a)))
    /\ ((forall x y z : E,
            semigroup.combine S z (semigroup.combine S y x)
            = semigroup.combine S (semigroup.combine S z y) x) ->
        forall (A B C : Type) (fa : Result E A) (fab : Result E (A -> B))
               (fbc : Result E (B -> C)),
          applicative.ap (getValidatedApplicative S) fa
            (applicative.ap (getValidatedApplicative S) fab
               (applicative.ap (getValidatedApplicative S) fbc
                  (applicative.of_ (getValidatedApplicative S)
                     (fun (g : B -> C) (f : A -> B) (a : A) => g (f a)))))
          = applicative.ap (getValidatedApplicative S)
              (applicative.ap (getValidatedApplicative S) fa fab) fbc).
Proof.
  intros E S. split; [| split].
  - intros A fa. destruct fa; reflexivity.
  - intros A B a fab. destruct fab; reflexivity.
  - intros Hassoc A B C fa fab fbc.
    destruct fa as [ea | a], fab as [eb | f], fbc as [ec | g]; cbn;
      try reflexivity.
    unfold fail. now rewrite Hassoc.
Qed.

Lemma getValidatedApplicative_laws_witness :
  let S := {| semigroup.combine := fun that self : list nat => self ++ that |} in
  applicative.ap (getValidatedApplicative S) (fail [3] : Result (list nat) nat)
    (applicative.ap (getValidatedApplicative S)
       (fail [2] : Result (list nat) (nat -> nat))
       (applicative.ap (getValidatedApplicative S)
          (fail [1] : Result (list nat) (nat -> nat))
          (applicative.of_ (getValidatedApplicative S)
             (fun (g f : nat -> nat) (a : nat) => g (f a)))))
  = applicative.ap (getValidatedApplicative S)
      (applicative.ap (getValidatedApplicative S)
         (fail [3] : Result (list nat) nat)
         (fail [2] : Result (list nat) (nat -> nat)))
      (fail [1] : Result (list nat) (nat -> nat)).
Proof.
  intros S.
  destruct (getValidatedApplicative_laws (list nat) S) as (_ & _ & Hcomp).
  apply (Hcomp (@list_semigroup_associative nat) nat nat nat).
Defined.

(** X10: unless both sides fail, the [ap] of [getValidatedApplicative] is the
    sequential policy, [flatMap] over the function side and [mapBoth] over
    the argument side; with the semigroup that keeps [self] it is that policy
    everywhere. *)
Theorem getValidatedApplicative_ap_versus_sequential :
  forall (E A B : Type) (S : semigroup.Semigroup E)
         (fa : Result E A) (fab : Result E (A -> B)),
    ((isSuccess fa || isSuccess fab)%bool = true ->
     applicative.ap (getValidatedApplicative S) fa fab
     = flatMap (fun g => mapBoth function.identity g fa) fab)
    /\ applicative.ap
         (getValidatedApplicative {| semigroup.combine := fun _ self : E => self |})
         fa fab
       = flatMap (fun g => mapBoth function.identity g fa) fab.
Proof.
  intros E A B S fa fab. destruct fa as [ea | a], fab as [eb | g];
    repeat split; intros; try reflexivity; discriminate.
Qed.

Lemma getValidatedApplicative_ap_versus_sequential_witness :
  applicative.ap
    (getValidatedApplicative {| semigroup.combine := fun that self : nat => self + that |})
    (of_ 1) (fail 7 : Result nat (nat -> nat))
  = flatMap (fun g => mapBoth function.identity g (of_ 1)) (fail 7).
Proof.
  destruct (getValidatedApplicative_ap_versus_sequential nat nat nat
              {| semigroup.combine := fun that self : nat => self + that |}
              (of_ 1) (fail 7 : Result nat (nat -> nat))) as (Hagree & _).
  apply Hagree. reflexivity.
Defined.

(** X11: [getSemigroup(S)] makes [Result] a semigroup when [S] is one: its
    [combine] is associative; a [Failure] given as [that] leaves [self] as it
    is, so of two failures the one of [self] is kept; and the combination is
    a [Success] exactly when one of the operands is. *)
Theorem getSemigroup_associative :
  forall (E A : Type) (S : semigroup.Semigroup A),
    (forall x y z : A,
        semigroup.combine S z (semigroup.combine S y x)
        = semigroup.combine S (semigroup.combine S z y) x) ->
    (forall x y z : Result E A,
        semigroup.combine (getSemigroup S) z
          (semigroup.combine (getSemigroup S) y x)
        = semigroup.combine (getSemigroup S)
            (semigroup.combine (getSemigroup S) z y) x)
    /\ (forall (e : E) (self : Result E A),
        semigroup.combine (getSemigroup S) (fail e) self = self)
    /\ (forall that self : Result E A,
        isSuccess (semigroup.combine (getSemigroup S) that self)
        = (isSuccess that || isSuccess self)%bool).
Proof.
  intros E A S Hassoc. split; [| split].
  - intros x y z. destruct x as [ex | ax], y as [ey | ay], z as [ez | az];
      cbn; try reflexivity.
    unfold of_. now rewrite Hassoc.
  - reflexivity.
  - intros that self. destruct that, self; reflexivity.
Qed.

Lemma getSemigroup_associative_witness :
  let S := {| semigroup.combine := fun that self : list nat => self ++ that |} in
  semigroup.combine (getSemigroup S) (of_ [3])
    (semigroup.combine (getSemigroup S) (of_ [2]) (of_ [1] : Result string (list nat)))
  = semigroup.combine (getSemigroup S)
      (semigroup.combine (getSemigroup S) (of_ [3]) (of_ [2])) (of_ [1]).
Proof.
  intros S.
  destruct (getSemigroup_associative string (list nat) S
              (@list_semigroup_associative nat))
    as (Hassoc & _).
  apply Hassoc.
Defined.

(** ** Filtering: [compact] and [separate] *)

(** X12: [compact] undoes wrapping the payload in [Some]; it returns a
    [Success] exactly for a [Success] that holds a present value; and on a
    payload that is always missing it is the failure of the input, or
    [onNone] where the input was a [Success]. *)
Theorem compact_inverts_some :
  forall (E A : Type) (e : E),
    (forall r : Result E A, compact e (mapBoth function.identity Some r) = r)
    /\ (forall (ro : Result E (option A)) (a : A),
           compact e ro = Success a <-> ro = Success (Some a))
    /\ (forall (B : Type) (r : Result E B),
           compact e (mapBoth function.identity (fun _ => @None A) r)
           = flatMap (fun _ => fail e) r).
Proof.
  intros E A e. split; [| split].
  - intros r. destruct r; reflexivity.
  - intros ro a. destruct ro as [x | [b |]]; cbn; split; intros H;
      try discriminate; injection H as <-; reflexivity.
  - intros B r. destruct r; reflexivity.
Qed.

(** X13: the two components of [separate] are two [compact]s, one keeping the
    inner failures and one keeping the inner successes; they are never both a
    [Success], and exactly one of them is when the outer layer is a
    [Success]. *)
Theorem separate_is_two_compacts :
  forall (E A B : Type) (e : E) (r : Result E (Result A B)),
    separate e r
    = (compact e (mapBoth function.identity
                    (match_ Some (fun _ => None)) r),
       compact e (mapBoth function.identity
                    (match_ (fun _ => None) Some) r))
    /\ (isSuccess (fst (separate e r)) && isSuccess (snd (separate e r)))%bool
       = false
    /\ xorb (isSuccess (fst (separate e r))) (isSuccess (snd (separate e r)))
       = isSuccess r.
Proof.
  intros E A B e r. destruct r as [x | [a | b]]; repeat split.
Qed.

(** ** [extend] and [duplicate] *)

(** X14: [extend] keeps the tag and is associative; [flatten] undoes
    [duplicate]; and [extend(f)] is [duplicate] followed by mapping with
    [f]. *)
Theorem extend_laws :
  forall (E A : Type) (w : Result E A),
    flatten (duplicate w) = w
    /\ (forall (B : Type) (f : Result E A -> B),
           isFailure (extend f w) = isFailure w)
    /\ (forall (B : Type) (f : Result E A -> B),
           extend f w = mapBoth function.identity f (duplicate w))
    /\ (forall (B C : Type) (g : Result E A -> B) (f : Result E B -> C),
           extend f (extend g w) = extend (fun w' => f (extend g w')) w).
Proof.
  intros E A w. destruct w as [e | a]; repeat split.
Qed.

(** ** The generic [traverse] *)

Section TraverseApplicative.

Variable F : Type -> Type.
Variable F_ : applicative.Applicative F.

(** The law of an applicative that the statements below rely on: mapping
    a pure value is the pure image. *)
Hypothesis map_of :
  forall (X Y : Type) (h : X -> Y) (x : X),
    applicative.map F_ h (applicative.of_ F_ x) = applicative.of_ F_ (h x).

Lemma traverse_of (E A B : Type) (g : A -> B) (ta : Result E A) :
  traverse F_ (fun a => applicative.of_ F_ (g a)) ta
  = applicative.of_ F_ (mapBoth function.identity g ta).
Proof.
  destruct ta as [e | a]; cbn; [reflexivity |]. now rewrite map_of.
Qed.

Lemma traverseFilterMap_of (E A B : Type) (g : A -> option B) (onNone : E)
  (ta : Result E A) :
  traverseFilterMap F_ (fun a => applicative.of_ F_ (g a)) onNone ta
  = applicative.of_ F_ (compact onNone (mapBoth function.identity g ta)).
Proof.
  unfold traverseFilterMap, function.flow.
  destruct ta as [e | a]; cbn; now rewrite ?map_of.
Qed.

Lemma traversePartitionMap_of (E A B C : Type) (g : A -> Result B C)
  (onNone : E) (ta : Result E A) :
  traversePartitionMap F_ (fun a => applicative.of_ F_ (g a)) onNone ta
  = applicative.of_ F_ (separate onNone (mapBoth function.identity g ta)).
Proof.
  unfold traversePartitionMap, function.flow.
  destruct ta as [e | a]; cbn; now rewrite ?map_of.
Qed.

End TraverseApplicative.

(** X15: in an applicative where mapping a pure value gives the pure image,
    traversing with a pure function is the pure [mapBoth]; and for every
    applicative, traversing after mapping the payload with [g] is traversing
    with the composed function. *)
Theorem traverse_pure_and_composition :
  forall (F : Type -> Type) (F_ : applicative.Applicative F),
    ((forall (X Y : Type) (h : X -> Y) (x : X),
         applicative.map F_ h (applicative.of_ F_ x)
         = applicative.of_ F_ (h x)) ->
     forall (E A B : Type) (g : A -> B) (ta : Result E A),
       traverse F_ (fun a => applicative.of_ F_ (g a)) ta
       = applicative.of_ F_ (mapBoth function.identity g ta))
    /\ (forall (E A B C : Type) (g : A -> B) (f : B -> F C) (ta : Result E A),
        traverse F_ f (mapBoth function.identity g ta)
        = traverse F_ (fun a => f (g a)) ta).
Proof.
  intros F F_. split.
  - intros Hlaw E A B g ta. now apply traverse_of.
  - intros E A B C g f ta. destruct ta; reflexivity.
Qed.

Lemma traverse_pure_and_composition_witness :
  let O := {| applicative.map := fun A B => @option_map A B;
              applicative.ap := fun A B (fa : option A) (fab : option (A -> B)) =>
                match fab, fa with
                | Some g, Some a => Some (g a)
                | _, _ => None
                end;
              applicative.of_ := fun A => @Some A |} in
  traverse O (fun n : nat => Some (S n)) (of_ 1 : Result string nat)
  = Some (of_ 2).
Proof.
  intros O.
  destruct (traverse_pure_and_composition option O) as (Hpure & _).
  apply (Hpure (fun X Y h x => eq_refl) string nat nat S).
Defined.

(** The example in the documentation of [traverse]: the head of an array, as
    an [Option]. *)
Example traverse_head_example :
  let O := {| applicative.map := fun A B => @option_map A B;
              applicative.ap := fun A B (fa : option A) (fab : option (A -> B)) =>
                match fab, fa with
                | Some g, Some a => Some (g a)
                | _, _ => None
                end;
              applicative.of_ := fun A => @Some A |} in
  traverse O (@hd_error string) (of_ ["a"] : Result nat (list string))
  = Some (of_ "a")
  /\ traverse O (@hd_error string) (of_ [] : Result nat (list string)) = None.
Proof. split; reflexivity. Qed.

(** X16: in an applicative where mapping a pure value gives the pure image,
    [traverseFilterMap] and [traversePartitionMap] with a pure function are
    the pure [compact] and [separate] of the mapped value. *)
Theorem traverseFilterMap_traversePartitionMap_pure :
  forall (F : Type -> Type) (F_ : applicative.Applicative F),
    (forall (X Y : Type) (h : X -> Y) (x : X),
        applicative.map F_ h (applicative.of_ F_ x)
        = applicative.of_ F_ (h x)) ->
    (forall (E A B : Type) (g : A -> option B) (onNone : E) (ta : Result E A),
        traverseFilterMap F_ (fun a => applicative.of_ F_ (g a)) onNone ta
        = applicative.of_ F_
            (compact onNone (mapBoth function.identity g ta)))
    /\ (forall (E A B C : Type) (g : A -> Result B C) (onNone : E)
               (ta : Result E A),
        traversePartitionMap F_ (fun a => applicative.of_ F_ (g a)) onNone ta
        = applicative.of_ F_
            (separate onNone (mapBoth function.identity g ta))).
Proof.
  intros F F_ Hlaw. split.
  - intros E A B g onNone ta. now apply traverseFilterMap_of.
  - intros E A B C g onNone ta. now apply traversePartitionMap_of.
Qed.

Lemma traverseFilterMap_traversePartitionMap_pure_witness :
  let O := {| applicative.map := fun A B => @option_map A B;
              applicative.ap := fun A B (fa : option A) (fab : option (A -> B)) =>
                match fab, fa with
                | Some g, Some a => Some (g a)
                | _, _ => None
                end;
              applicative.of_ := fun A => @Some A |} in
  traverseFilterMap O (fun n : nat => Some (if Nat.even n then Some n else None))
    "odd" (of_ 3 : Result string nat)
  = Some (fail "odd").
Proof.
  intros O.
  destruct (traverseFilterMap_traversePartitionMap_pure option O)
    as (Hfilter & _).
  - reflexivity.
  - apply (Hfilter string nat nat
             (fun n => if Nat.even n then Some n else None) "odd" (of_ 3)).
Defined.

(** ** [tapError], [exists], [elem] *)

(** X17: [tapError] never turns a failure into a success nor a success into
    a failure; it returns its input unchanged when the handler succeeds, and
    the failure of the handler when the handler fails; it is [catchAll] with
    a handler whose success is discarded. *)
Theorem tapError_keeps_or_replaces_failure :
  forall (E A B : Type) (onError : E -> Result E B) (self : Result E A),
    isFailure (tapError onError self) = isFailure self
    /\ ((forall e, isSuccess (onError e) = true) ->
        tapError onError self = self)
    /\ (forall e e', self = Failure e -> onError e = Failure e' ->
                     tapError onError self = Failure e')
    /\ tapError onError self
       = catchAll (fun e => flatMap (fun _ => fail e) (onError e)) self.
Proof.
  intros E A B onError self. destruct self as [e | a].
  - cbn. split; [| split; [| split]].
    + destruct (onError e); reflexivity.
    + intros Hok. specialize (Hok e). destruct (onError e);
        [discriminate | reflexivity].
    + intros e0 e' [= <-] Hfail. now rewrite Hfail.
    + destruct (onError e); reflexivity.
  - split; [| split; [| split]]; try reflexivity.
    intros e e' H. discriminate.
Qed.

Lemma tapError_keeps_or_replaces_failure_witness :
  tapError (fun e : string => of_ (String.length e) : Result string nat)
           (fail "a" : Result string bool)
  = fail "a"
  /\ tapError (fun e : string => fail "b" : Result string nat)
              (fail "a" : Result string bool)
     = Failure "b".
Proof.
  destruct (tapError_keeps_or_replaces_failure string bool nat
              (fun e : string => of_ (String.length e) : Result string nat)
              (fail "a" : Result string bool)) as (_ & Hkeep & _).
  destruct (tapError_keeps_or_replaces_failure string bool nat
              (fun e : string => fail "b" : Result string nat)
              (fail "a" : Result string bool)) as (_ & _ & Hreplace & _).
  split.
  - apply Hkeep. reflexivity.
  - apply (Hreplace "a" "b"); reflexivity.
Defined.



(** ** Instances: [getEq] and [getShow] *)

(** X19: with equalities on the payloads that decide [=], the equality of
    [getEq] decides [=] on [Result]: two values are equal exactly when they
    have the same tag and the same payload. *)
Theorem getEq_decides_equality :
  forall (E A : Type) (EE : eq.Eq E) (EA : eq.Eq A),
    (forall x y : E, eq.equals EE x y = true <-> x = y) ->
    (forall x y : A, eq.equals EA x y = true <-> x = y) ->
    forall that self : Result E A,
      eq.equals (getEq EE EA) that self = true <-> that = self.
Proof.
  intros E A EE EA HE HA that self.
  destruct that as [et | at_], self as [es | as_]; cbn; split; intros H;
    try discriminate.
  - apply HE in H. now subst.
  - injection H as ->. now apply HE.
  - apply HA in H. now subst.
  - injection H as ->. now apply HA.
Qed.

Lemma getEq_decides_equality_witness :
  eq.equals (getEq {| eq.equals := String.eqb |} {| eq.equals := Nat.eqb |})
    (of_ 1) (fail "a")
  <> true.
Proof.
  intros H.
  apply (getEq_decides_equality string nat
           {| eq.equals := String.eqb |} {| eq.equals := Nat.eqb |}
           String.eqb_eq Nat.eqb_eq) in H.
  discriminate.
Defined.

Lemma append_char_injective (c : Ascii.ascii) :
  forall s s' : string,
    (s ++ String c EmptyString)%string = (s' ++ String c EmptyString)%string ->
    s = s'.
Proof.
  induction s as [| d s IH]; intros [| d' s'] H; cbn in H.
  - reflexivity.
  - injection H as _ H. destruct s'; discriminate.
  - injection H as _ H. destruct s; discriminate.
  - injection H as -> H. f_equal. now apply IH.
Qed.

(** X20: with injective [show]s on the payloads, the [show] of [getShow] is
    injective: two different values of [Result] never have the same text. *)
Theorem getShow_injective :
  forall (E A : Type) (SE : show.Show E) (SA : show.Show A),
    (forall x y : E, show.show SE x = show.show SE y -> x = y) ->
    (forall x y : A, show.show SA x = show.show SA y -> x = y) ->
    forall r r' : Result E A,
      show.show (getShow SE SA) r = show.show (getShow SE SA) r' -> r = r'.
Proof.
  intros E A SE SA HE HA r r' H.
  destruct r as [e | a], r' as [e' | a']; cbn in H; try discriminate.
  - injection H as H. apply append_char_injective in H.
    f_equal. now apply HE.
  - injection H as H. apply append_char_injective in H.
    f_equal. now apply HA.
Qed.

Lemma getShow_injective_witness :
  show.show (getShow {| show.show := fun s : string => s |}
                     {| show.show := fun b : bool => if b then "true" else "false" |})
    (fail "x")
  = "fail(x)"
  /\ fail "x" <> (of_ true : Result string bool).
Proof.
  split; [reflexivity |].
  intros H.
  assert (Hshow :
    show.show (getShow {| show.show := fun s : string => s |}
                 {| show.show := fun b : bool => if b then "true" else "false" |})
      (fail "x")
    = show.show (getShow {| show.show := fun s : string => s |}
                 {| show.show := fun b : bool => if b then "true" else "false" |})
        (of_ true)).
  { now rewrite H. }
  apply (getShow_injective string bool
           {| show.show := fun s : string => s |}
           {| show.show := fun b : bool => if b then "true" else "false" |})
    in Hshow.
  - discriminate.
  - intros x y Hxy. exact Hxy.
  - intros [|] [|] Hxy; try reflexivity; discriminate.
Defined.

(** ** More on [flatMapRec] *)

Section FlatMapRecFuel.

Variables A E B : Type.
Variable f : A -> Result E (Result A B).

(** A step function that asks to continue along [path] for [k] steps uses up
    [k] units of fuel. *)
Lemma flatMapRec_along_path (path : nat -> A) :
  forall k i,
    (forall j, j < k ->
               f (path (i + j)) = Success (Failure (path (S (i + j))))) ->
    forall fuel,
      flatMapRec (k + fuel) f (path i) = flatMapRec fuel f (path (i + k)).
Proof.
  induction k as [| k IH]; intros i Hpath fuel.
  - now rewrite Nat.add_0_r.
  - cbn [Nat.add].
    rewrite flatMapRec_inner_failure with (a' := path (S i)).
    + rewrite (IH (S i)); [now rewrite Nat.add_succ_r |].
      intros j Hj. cbn [Nat.add]. rewrite <- Nat.add_succ_r.
      apply Hpath. lia.
    + rewrite <- (Nat.add_0_r i) at 1 2. apply Hpath. lia.
Qed.

Lemma flatMapRec_short_of_fuel (path : nat -> A) :
  forall fuel k i,
    (forall j, j < k ->
               f (path (i + j)) = Success (Failure (path (S (i + j))))) ->
    fuel < k -> flatMapRec fuel f (path i) = None.
Proof.
  induction fuel as [| fuel IH]; intros k i Hpath Hlt.
  - apply flatMapRec_out_of_fuel with (path (S i)).
    rewrite <- (Nat.add_0_r i) at 1 2. apply Hpath. lia.
  - destruct k as [| k]; [lia |].
    rewrite flatMapRec_inner_failure with (a' := path (S i)).
    + apply (IH k (S i)); [| lia].
      intros j Hj. cbn [Nat.add]. rewrite <- Nat.add_succ_r.
      apply Hpath. lia.
    + rewrite <- (Nat.add_0_r i) at 1 2. apply Hpath. lia.
Qed.

End FlatMapRecFuel.

(** X21: a step function that never asks to continue makes [flatMapRec] a
    plain call that needs no iteration of the loop; a step function that
    always asks to continue makes it run forever: no number of iterations
    gives a result, and the specification of the steps relates the argument
    to no result. *)
Theorem flatMapRec_plain_call_or_endless :
  forall (A E B : Type),
    (forall (g : A -> Result E B) (a : A) (fuel : nat),
        flatMapRec fuel (fun x => mapBoth function.identity of_ (g x)) a
        = Some (g a))
    /\ (forall (f : A -> Result E (Result A B)),
        (forall a, exists a', f a = Success (Failure a')) ->
        forall a,
          (forall fuel, flatMapRec fuel f a = None)
          /\ (forall r, ~ flatMapRec_spec f a r)).
Proof.
  intros A E B. split.
  - intros g a fuel. unfold flatMapRec, function.flow, flattenableRec.tailRec.
    destruct (g a); destruct fuel; reflexivity.
  - intros f Hloop.
    assert (Hnone : forall fuel a, flatMapRec fuel f a = None).
    { induction fuel as [| fuel IH]; intros a;
        destruct (Hloop a) as [a' Hf].
      - now apply flatMapRec_out_of_fuel with a'.
      - rewrite flatMapRec_inner_failure with (a' := a'); [apply IH | exact Hf]. }
    intros a. split; [intros fuel; apply Hnone |].
    intros r Hspec. apply flatMapRec_complete in Hspec as [fuel Hrun].
    rewrite Hnone in Hrun. discriminate.
Qed.

Lemma flatMapRec_plain_call_or_endless_witness :
  flatMapRec 1000
    (fun n : nat => Success (Failure (S n)) : Result string (Result nat bool))
    0 = None.
Proof.
  destruct (flatMapRec_plain_call_or_endless nat string bool) as (_ & Hloop).
  apply (Hloop (fun n : nat => Success (Failure (S n)))).
  intros a. now exists (S a).
Defined.

(** X22: the result of [flatMapRec] does not depend on the number of
    iterations allowed, once there are enough; and [k] requests to continue
    in a row use up exactly [k] iterations: fewer give no result, and after
    [k] the run is at the [k]-th argument. *)
Theorem flatMapRec_fuel_exact :
  forall (A E B : Type) (f : A -> Result E (Result A B)),
    (forall (a : A) (fuel fuel' : nat) (r r' : Result E B),
        flatMapRec fuel f a = Some r -> flatMapRec fuel' f a = Some r' ->
        r = r')
    /\ (forall (path : nat -> A) (k : nat),
        (forall j, j < k -> f (path j) = Success (Failure (path (S j)))) ->
        (forall fuel, fuel < k -> flatMapRec fuel f (path 0) = None)
        /\ (forall fuel,
               flatMapRec (k + fuel) f (path 0) = flatMapRec fuel f (path k))).
Proof.
  intros A E B f. split.
  - intros a fuel fuel' r r' Hrun Hrun'.
    apply flatMapRec_fuel_monotone with (fuel' := fuel + fuel') in Hrun;
      [| lia].
    apply flatMapRec_fuel_monotone with (fuel' := fuel + fuel') in Hrun';
      [| lia].
    congruence.
  - intros path k Hpath. split.
    + intros fuel Hlt.
      now apply flatMapRec_short_of_fuel with (k := k) (i := 0).
    + intros fuel.
      now rewrite flatMapRec_along_path with (i := 0).
Qed.

Lemma flatMapRec_fuel_exact_witness :
  let f := fun n : nat =>
             if Nat.ltb n 3 then Success (Failure (S n))
             else Success (Success n) : Result string (Result nat nat) in
  flatMapRec 2 f 0 = None /\ flatMapRec 3 f 0 = flatMapRec 0 f 3.
Proof.
  intros f.
  destruct (flatMapRec_fuel_exact nat string nat f) as (_ & Hexact).
  destruct (Hexact (fun n => n) 3) as (Hshort & Hlong).
  - intros [| [| [| j]]] Hj; try reflexivity. lia.
  - split; [apply Hshort; lia | apply (Hlong 0)].
Defined.

(** ** More on the array traversals *)

Section TraverseOutcomes.

Variables St X A E B : Type.
Variable f : nat -> A -> Host St X (Result E B).

Lemma all_succeed_length :
  forall i l s bs s',
    all_succeed f i l s bs s' -> length bs = length l.
Proof.
  induction 1 as [| i a l s b s1 bs s2 _ _ IH]; [reflexivity |].
  cbn. now rewrite IH.
Qed.

(** Going through an array from the left, either every call succeeds or
    there is a first call that does not return a [Success]. *)
Lemma all_succeed_or_first_stop :
  forall (l : list A) (i : nat) (s : St),
    (exists bs s', all_succeed f i l s bs s')
    \/ (exists pre a post bs s1 c s2,
           l = pre ++ a :: post
           /\ all_succeed f i pre s bs s1
           /\ f (i + length pre) a s1 = (c, s2)
           /\ forall b, c <> Normal (Success b)).
Proof.
  induction l as [| a l IH]; intros i s.
  - left. exists [], s. constructor.
  - destruct (f i a s) as [c s1] eqn:Hcall.
    destruct c as [[e | b] | x].
    + right. exists [], a, l, [], s, (Normal (Failure e)), s1.
      cbn. rewrite Nat.add_0_r. repeat split; try constructor; try assumption.
      intros b. discriminate.
    + destruct (IH (S i) s1)
        as [(bs & s' & Hall)
           | (pre & a' & post & bs & s2 & c & s3 & -> & Hall & Hstop & Hc)].
      * left. exists (b :: bs), s'. now apply all_succeed_cons with s1.
      * right. exists (a :: pre), a', post, (b :: bs), s2, c, s3.
        repeat split; try assumption.
        -- now apply all_succeed_cons with s1.
        -- cbn [length]. now rewrite Nat.add_succ_r.
    + right. exists [], a, l, [], s, (Throw x), s1.
      cbn. rewrite Nat.add_0_r. repeat split; try constructor; try assumption.
      intros b. discriminate.
Qed.

End TraverseOutcomes.

Arguments all_succeed_length {St X A E B f i l s bs s'} _.
Arguments all_succeed_or_first_stop {St X A E B} f l i s.

(** X23: a traversal of an array ends in exactly one of three ways: every
    call has succeeded and the payloads are returned; or a first call has
    returned a [Failure], which is the result; or a first call has thrown,
    and the traversal throws that value.  In the last two cases the host
    state is the one that call has left. *)
Theorem traverse_array_outcomes :
  forall (St X A E B : Type) (f : nat -> A -> Host St X (Result E B))
         (l : list A) (s : St),
    (exists bs s',
        all_succeed f 0 l s bs s'
        /\ traverseReadonlyArrayWithIndex f l s = (Normal (of_ bs), s'))
    \/ (exists pre a post bs s1 e s2,
           l = pre ++ a :: post
           /\ all_succeed f 0 pre s bs s1
           /\ f (length pre) a s1 = (Normal (Failure e), s2)
           /\ traverseReadonlyArrayWithIndex f l s = (Normal (Failure e), s2))
    \/ (exists pre a post bs s1 x s2,
           l = pre ++ a :: post
           /\ all_succeed f 0 pre s bs s1
           /\ f (length pre) a s1 = (Throw x, s2)
           /\ traverseReadonlyArrayWithIndex f l s = (Throw x, s2)).
Proof.
  intros St X A E B f l s.
  destruct (all_succeed_or_first_stop f l 0 s)
    as [(bs & s' & Hall)
       | (pre & a & post & bs & s1 & c & s2 & -> & Hall & Hstop & Hc)].
  - left. exists bs, s'. split; [exact Hall |].
    now apply traverseArray_all_succeed.
  - cbn [Nat.add] in Hstop. destruct c as [[e | b] | x].
    + right. left. exists pre, a, post, bs, s1, e, s2.
      repeat split; try assumption.
      now apply traverseArray_first_failure with bs s1.
    + now destruct (Hc b).
    + right. right. exists pre, a, post, bs, s1, x, s2.
      repeat split; try assumption.
      now apply traverseArray_first_throw with bs s1.
Qed.

(** X24: what a result of a traversal tells about the calls.  A [Success]
    means that every call has returned a [Success]; it holds one payload for
    each element of the array.  A [Failure] is the failure returned by one
    call, and every call before it has returned a [Success]. *)
Theorem traverse_array_result_inversion :
  forall (St X A E B : Type) (f : nat -> A -> Host St X (Result E B))
         (l : list A) (s : St),
    (forall bs s',
        traverseReadonlyArrayWithIndex f l s = (Normal (Success bs), s') ->
        all_succeed f 0 l s bs s' /\ length bs = length l)
    /\ (forall e s2,
        traverseReadonlyArrayWithIndex f l s = (Normal (Failure e), s2) ->
        exists pre a post bs s1,
          l = pre ++ a :: post
          /\ all_succeed f 0 pre s bs s1
          /\ f (length pre) a s1 = (Normal (Failure e), s2)).
Proof.
  intros St X A E B f l s.
  destruct (all_succeed_or_first_stop f l 0 s)
    as [(bs0 & s0 & Hall)
       | (pre & a & post & bs0 & s1 & c & s0 & -> & Hall & Hcall & Hc)].
  - rewrite traverseArray_all_succeed with (1 := Hall).
    split; intros * Heq; [| discriminate].
    injection Heq as <- <-. split; [exact Hall |].
    exact (all_succeed_length Hall).
  - cbn [Nat.add] in Hcall. destruct c as [[e0 | b] | x].
    + rewrite traverseArray_first_failure with (1 := Hall) (2 := Hcall).
      split; intros * Heq; [discriminate |].
      injection Heq as <- <-. now exists pre, a, post, bs0, s1.
    + now destruct (Hc b).
    + rewrite traverseArray_first_throw with (1 := Hall) (2 := Hcall).
      split; intros * Heq; discriminate.
Qed.

Lemma traverse_array_result_inversion_witness :
  length ["a"; "b"] = length [1; 2].
Proof.
  destruct (traverse_array_result_inversion (list (nat * nat)) unit nat bool string
              (logged (X := unit)
                 (fun (i : nat) (n : nat) =>
                    of_ (if Nat.eqb n 1 then "a" else "b") : Result bool string))
              [1; 2] []) as (Hsuccess & _).
  destruct (Hsuccess ["a"; "b"] [(0, 1); (1, 2)]) as (_ & Hlen).
  - reflexivity.
  - exact Hlen.
Defined.

(** Callbacks that only return, run over an array. *)
Lemma all_succeed_of (St X A E B : Type) (g : nat -> A -> B) :
  forall (l : list A) (i : nat) (s : St),
    all_succeed
      (fun i a => ret (of_ (g i a)) : Host St X (Result E B)) i l s
      (List.map (fun p => g (fst p) (snd p)) (combine (seq i (length l)) l)) s.
Proof.
  induction l as [| a l IH]; intros i s; cbn.
  - constructor.
  - apply all_succeed_cons with s; [reflexivity | apply IH].
Qed.

Lemma array_of_results_shape (E A : Type) :
  forall l : list (Result E A),
    (exists bs, l = List.map of_ bs)
    \/ (exists pre e post, l = List.map of_ pre ++ fail e :: post).
Proof.
  induction l as [| r l IH].
  - left. now exists [].
  - destruct r as [e | a].
    + right. now exists [], e, l.
    + destruct IH as [(bs & ->) | (pre & e & post & ->)].
      * left. now exists (a :: bs).
      * right. now exists (a :: pre), e, post.
Qed.

(** X25: [sequenceReadonlyArray] returns the payloads of an array of
    successes, in order, and the first [Failure] of an array that holds one,
    whatever comes after it; every array is of one of these two shapes; the
    host state is never changed and nothing is thrown. *)
Theorem sequenceReadonlyArray_all_or_first_failure :
  forall (St X E A : Type) (s : St),
    (forall bs : list A,
        sequenceReadonlyArray (X := X) (List.map (@of_ E A) bs) s
        = (Normal (of_ bs), s))
    /\ (forall (pre : list A) (e : E) (post : list (Result E A)),
        sequenceReadonlyArray (X := X) (List.map of_ pre ++ fail e :: post) s
        = (Normal (fail e), s))
    /\ (forall l : list (Result E A),
        exists r, sequenceReadonlyArray (X := X) l s = (Normal r, s)).
Proof.
  intros St X E A s.
  assert (Hsucc : forall bs : list A,
             sequenceReadonlyArray (X := X) (List.map (@of_ E A) bs) s
             = (Normal (of_ bs), s)).
  { intros bs. unfold sequenceReadonlyArray, traverseReadonlyArray.
    apply traverseArray_all_succeed. apply all_succeed_identity. }
  assert (Hfail : forall (pre : list A) (e : E) (post : list (Result E A)),
             sequenceReadonlyArray (X := X) (List.map of_ pre ++ fail e :: post) s
             = (Normal (fail e), s)).
  { intros pre e post. unfold sequenceReadonlyArray, traverseReadonlyArray.
    apply traverseArray_first_failure with pre s.
    - apply all_succeed_identity.
    - reflexivity. }
  split; [exact Hsucc | split; [exact Hfail |]].
  intros l.
  destruct (array_of_results_shape E A l) as [(bs & ->) | (pre & e & post & ->)].
  - exists (of_ bs). apply Hsucc.
  - exists (fail e). apply Hfail.
Qed.

(** X26: a traversal with a callback that always succeeds and only returns
    is the map over the array, with the index for the indexed variant, and
    leaves the host state as it was. *)
Theorem traverse_array_of_is_map :
  forall (St X A E B : Type) (l : list A) (s : St),
    (forall g : nat -> A -> B,
        traverseReadonlyArrayWithIndex
          (fun i a => ret (of_ (g i a)) : Host St X (Result E B)) l s
        = (Normal (of_ (List.map (fun p => g (fst p) (snd p))
                          (combine (seq 0 (length l)) l))), s))
    /\ (forall h : A -> B,
        traverseReadonlyArray
          (fun a => ret (of_ (h a)) : Host St X (Result E B)) l s
        = (Normal (of_ (List.map h l)), s)).
Proof.
  intros St X A E B l s. split.
  - intros g. apply traverseArray_all_succeed. apply all_succeed_of.
  - intros h. unfold traverseReadonlyArray.
    apply traverseArray_all_succeed.
    assert (Hall : forall (l0 : list A) (i : nat),
               all_succeed
                 (function.flow2 function.SK
                    (fun a => ret (of_ (h a)) : Host St X (Result E B)))
                 i l0 s (List.map h l0) s).
    { induction l0 as [| a l0 IH]; intros i; cbn.
      - constructor.
      - apply all_succeed_cons with s; [reflexivity | apply IH]. }
    apply Hall.
Qed.

(** * Properties of FromEither.ts *)

Import fromEither.

Section FromEitherLaws.

Variable M : Type -> Type -> Type.
Variable F_ : FromEither M.
Variable M_ : Chain M.

(** What the statements below need of the instance: chaining from a right
    value calls the function on it, and chaining from a left value leaves it
    as it is. *)
Hypothesis chain_right :
  forall (E A B : Type) (f : A -> M E B) (a : A),
    chain M_ f (fromEither F_ (right a)) = f a.

Hypothesis chain_left :
  forall (E A B : Type) (f : A -> M E B) (e : E),
    chain M_ f (fromEither F_ (left e) : M E A) = fromEither F_ (left e).

Lemma filterOrElse_right (B E : Type) (p : B -> bool) (onFalse : B -> E)
  (b : B) :
  filterOrElse F_ M_ p onFalse (fromEither F_ (right b))
  = fromEither F_ (if p b then right b else left (onFalse b)).
Proof. unfold filterOrElse. now rewrite chain_right. Qed.

Lemma filterOrElse_left (B E : Type) (p : B -> bool) (onFalse : B -> E)
  (e : E) :
  filterOrElse F_ M_ p onFalse (fromEither F_ (left e))
  = fromEither F_ (left e).
Proof. unfold filterOrElse. now rewrite chain_left. Qed.

Lemma filterOrElse_twice (B E : Type) (p : B -> bool) (onFalse : B -> E)
  (x : Either E B) :
  filterOrElse F_ M_ p onFalse (filterOrElse F_ M_ p onFalse (fromEither F_ x))
  = filterOrElse F_ M_ p onFalse (fromEither F_ x).
Proof.
  destruct x as [e | b].
  - change (inl e) with (@left E B e). now rewrite !filterOrElse_left.
  - change (inr b) with (@right E B b). rewrite filterOrElse_right.
    destruct (p b) eqn:Hp.
    + rewrite filterOrElse_right. now rewrite Hp.
    + now rewrite filterOrElse_left.
Qed.

(** With a [chain] that is also associative and does not tell apart
    functions that agree everywhere, filtering twice is filtering once on
    every value. *)
Lemma filterOrElse_idempotent (B E : Type) (p : B -> bool) (onFalse : B -> E) :
  (forall (A C D : Type) (f : A -> M E C) (g : C -> M E D) (ma : M E A),
      chain M_ g (chain M_ f ma) = chain M_ (fun a => chain M_ g (f a)) ma) ->
  (forall (A C : Type) (f g : A -> M E C) (ma : M E A),
      (forall a, f a = g a) -> chain M_ f ma = chain M_ g ma) ->
  forall mb : M E B,
    filterOrElse F_ M_ p onFalse (filterOrElse F_ M_ p onFalse mb)
    = filterOrElse F_ M_ p onFalse mb.
Proof.
  intros Hassoc Hext mb. unfold filterOrElse.
  rewrite Hassoc. apply Hext. intros b.
  destruct (p b) eqn:Hp.
  - rewrite chain_right. now rewrite Hp.
  - now rewrite chain_left.
Qed.

Lemma chainOptionK_right (E A B : Type) (onNone : unit -> E)
  (f : A -> option B) (a : A) :
  chainOptionK F_ M_ onNone f (fromEither F_ (right a))
  = fromOption F_ onNone (f a).
Proof. unfold chainOptionK. now rewrite chain_right. Qed.

Lemma chainEitherK_right (E A B : Type) (f : A -> Either E B) (a : A) :
  chainEitherK F_ M_ f (fromEither F_ (right a)) = fromEither F_ (f a).
Proof. unfold chainEitherK. now rewrite chain_right. Qed.

End FromEitherLaws.

(** X27: in an instance where chaining from a right value calls the function
    and chaining from a left value leaves it, [filterOrElse] keeps a right
    value that satisfies the predicate, replaces one that does not by the
    left value [onFalse(b)], which is what [fromPredicateOrElse] builds, and
    leaves a left value as it is; filtering twice is filtering once on every
    value built by [fromEither], and on every value at all when [chain] is
    also associative and does not tell apart functions that agree
    everywhere. *)
Theorem filterOrElse_keeps_or_rejects :
  forall (M : Type -> Type -> Type) (F_ : FromEither M) (M_ : Chain M),
    (forall (E A B : Type) (f : A -> M E B) (a : A),
        chain M_ f (fromEither F_ (right a)) = f a) ->
    (forall (E A B : Type) (f : A -> M E B) (e : E),
        chain M_ f (fromEither F_ (left e) : M E A) = fromEither F_ (left e)) ->
    forall (B E : Type) (p : B -> bool) (onFalse : B -> E),
      (forall b : B,
          filterOrElse F_ M_ p onFalse (fromEither F_ (right b))
          = fromEither F_ (if p b then right b else left (onFalse b)))
      /\ (forall b : B,
          filterOrElse F_ M_ p onFalse (fromEither F_ (right b))
          = fromPredicateOrElse F_ p onFalse b)
      /\ (forall e : E,
          filterOrElse F_ M_ p onFalse (fromEither F_ (left e))
          = fromEither F_ (left e))
      /\ (forall x : Either E B,
          filterOrElse F_ M_ p onFalse
            (filterOrElse F_ M_ p onFalse (fromEither F_ x))
          = filterOrElse F_ M_ p onFalse (fromEither F_ x))
      /\ ((forall (A C D : Type) (f : A -> M E C) (g : C -> M E D)
                  (ma : M E A),
              chain M_ g (chain M_ f ma)
              = chain M_ (fun a => chain M_ g (f a)) ma) ->
          (forall (A C : Type) (f g : A -> M E C) (ma : M E A),
              (forall a, f a = g a) -> chain M_ f ma = chain M_ g ma) ->
          forall mb : M E B,
            filterOrElse F_ M_ p onFalse (filterOrElse F_ M_ p onFalse mb)
            = filterOrElse F_ M_ p onFalse mb).
Proof.
  intros M F_ M_ Hright Hleft B E p onFalse.
  split; [| split; [| split; [| split]]].
  - intros b. now apply filterOrElse_right.
  - intros b. now apply filterOrElse_right.
  - intros e. now apply filterOrElse_left.
  - intros x. now apply filterOrElse_twice.
  - intros Hassoc Hext mb. now apply filterOrElse_idempotent.
Qed.

Lemma filterOrElse_keeps_or_rejects_witness :
  let F_ := {| fromEither := fun (E A : Type) (fa : Either E A) => fa |} in
  let M_ := {| chain := fun (E A B : Type) (f : A -> Either E B)
                            (ma : Either E A) =>
                          match ma with
                          | inl e => inl e
                          | inr a => f a
                          end |} in
  filterOrElse F_ M_ (fun n => Nat.ltb 0 n) (fun _ : nat => "not positive")
    (right 0)
  = left "not positive"
  /\ filterOrElse F_ M_ (fun n => Nat.ltb 0 n) (fun _ : nat => "not positive")
       (filterOrElse F_ M_ (fun n => Nat.ltb 0 n)
          (fun _ : nat => "not positive") (right 3))
     = filterOrElse F_ M_ (fun n => Nat.ltb 0 n)
         (fun _ : nat => "not positive") (right 3).
Proof.
  intros F_ M_.
  destruct (filterOrElse_keeps_or_rejects Either F_ M_) with
    (B := nat) (E := string) (p := fun n => Nat.ltb 0 n)
    (onFalse := fun _ : nat => "not positive")
    as (Hright & _ & _ & _ & Hidem).
  - reflexivity.
  - reflexivity.
  - split; [apply (Hright 0) |].
    apply Hidem.
    + intros A C D f g ma. destruct ma; reflexivity.
    + intros A C f g ma Hfg. destruct ma; [reflexivity | apply Hfg].
Defined.

(** X28: in such an instance, [chainOptionK] and [chainEitherK] from a right
    value are [fromOption] and [fromEither] of what the function returns on
    it; for every instance, [chainOptionK] is [chainEitherK] with the option
    turned into an [Either], a missing value becomes the left value
    [onNone()], and [fromPredicate] is [fromPredicateOrElse] with the
    identity. *)
Theorem chainOptionK_chainEitherK_from_right :
  forall (M : Type -> Type -> Type) (F_ : FromEither M) (M_ : Chain M),
    (forall (E A B : Type) (f : A -> M E B) (a : A),
        chain M_ f (fromEither F_ (right a)) = f a) ->
    (forall (E A B : Type) (onNone : unit -> E) (f : A -> option B) (a : A),
        chainOptionK F_ M_ onNone f (fromEither F_ (right a))
        = fromOption F_ onNone (f a))
    /\ (forall (E A B : Type) (f : A -> Either E B) (a : A),
        chainEitherK F_ M_ f (fromEither F_ (right a)) = fromEither F_ (f a))
    /\ (forall (E A B : Type) (onNone : unit -> E) (f : A -> option B)
               (ma : M E A),
        chainOptionK F_ M_ onNone f ma
        = chainEitherK F_ M_ (fun a => internal_fromOption onNone (f a)) ma)
    /\ (forall (E A : Type) (onNone : unit -> E),
        fromOption F_ onNone (@None A) = fromEither F_ (left (onNone tt))
        /\ forall a : A, fromOption F_ onNone (Some a) = fromEither F_ (right a))
    /\ (forall (B : Type) (p : B -> bool) (b : B),
        fromPredicate F_ p b = fromPredicateOrElse F_ p (fun x => x) b).
Proof.
  intros M F_ M_ Hright. repeat split.
  - intros E A B onNone f a. now apply chainOptionK_right.
  - intros E A B f a. now apply chainEitherK_right.
Qed.

Lemma chainOptionK_chainEitherK_from_right_witness :
  let F_ := {| fromEither := fun (E A : Type) (fa : Either E A) => fa |} in
  let M_ := {| chain := fun (E A B : Type) (f : A -> Either E B)
                            (ma : Either E A) =>
                          match ma with
                          | inl e => inl e
                          | inr a => f a
                          end |} in
  chainOptionK F_ M_ (fun _ => "empty") (@hd_error nat) (right [])
  = left "empty".
Proof.
  intros F_ M_.
  destruct (chainOptionK_chainEitherK_from_right Either F_ M_) as (Hopt & _).
  - reflexivity.
  - apply (Hopt string (list nat) nat (fun _ => "empty") (@hd_error nat) []).
Defined.
